(** * ebay-parser: the scraping pipeline of [main.py], [parser/parser.py]
      and [parser/request.py], embedded in Rocq.

    Python values are modelled as follows.
    - [str] is [string]; a character is a code point below 256.
    - [int] is [Z].
    - [Optional[T]] is [option T]; [None] is [None].
    - a raised exception is the [Raise] case of [result].
    - the [dict] of parsed items is a [gmap string Item].
    - the browser session and the network are an abstract world that every
      page fetch reads and updates; fetches and the bulk write are recorded
      in a trace so that their order can be stated.
    - the sheet is the list of its rows, the same at both reads of a run.
    [print] calls and [time.sleep] are not modelled. The authorisation of
    [get_sheet] and the call of [batch_update] are taken to succeed.

    Two calls of the resolver sit one line before a [try] block:
    [get_driver()] in [get_page] and [Parser(page)] in [parse_item]. The
    modules [Request] and [Main] hold the program for the runs in which
    these two calls return; the module [Raising] holds it with the two
    calls free to raise. [RaisingFacts.parse_item_agrees] and
    [RaisingFacts.main_agrees] relate the two. *)

From Stdlib Require Import ZArith String Ascii List Bool Lia.
From stdpp Require Import gmap strings list fin_maps.
From Equations Require Import Equations.
Import ListNotations.

Local Open Scope string_scope.
Local Open Scope nat_scope.
Local Open Scope list_scope.

(** ** Exceptions *)

Inductive exn : Type :=
| RuntimeError (msg : string)
| ValueError
| IndexError
| OtherError (msg : string).

Inductive result (A : Type) : Type :=
| Ok (a : A)
| Raise (e : exn).
Arguments Ok {A} a.
Arguments Raise {A} e.

Definition bind {A B : Type} (r : result A) (k : A -> result B) : result B :=
  match r with
  | Ok a => k a
  | Raise e => Raise e
  end.

Notation "'let!' x ':=' r 'in' k" := (bind r (fun x => k))
  (at level 10, x name, r at level 100, k at level 200).

(** ** The [str] methods the program uses *)

Module PyStr.

(** [str.isspace] on one character, for code points below 256. *)
Definition is_space (c : ascii) : bool :=
  let n := nat_of_ascii c in
  ((9 <=? n) && (n <=? 13)) || ((28 <=? n) && (n <=? 32))
  || (n =? 133) || (n =? 160).

Fixpoint lstrip (s : string) : string :=
  match s with
  | EmptyString => EmptyString
  | String c s' => if is_space c then lstrip s' else s
  end.

Fixpoint rstrip (s : string) : string :=
  match s with
  | EmptyString => EmptyString
  | String c s' =>
      match rstrip s' with
      | EmptyString => if is_space c then EmptyString else String c EmptyString
      | r => String c r
      end
  end.

(** [s.strip()] *)
Definition strip (s : string) : string := rstrip (lstrip s).

(** [sub in s] *)
Fixpoint contains (sub s : string) : bool :=
  String.prefix sub s
  || match s with
     | EmptyString => false
     | String _ s' => contains sub s'
     end.

(** [s.replace(old, new)]: occurrences are found left to right and do not
    overlap. [skip] counts the characters of a matched occurrence still to
    be dropped. An empty [old] matches before every character and at the
    end, as in Python. *)
Fixpoint replace_from (old new : string) (skip : nat) (s : string) : string :=
  match s with
  | EmptyString =>
      match old with EmptyString => new | _ => EmptyString end
  | String c s' =>
      match skip with
      | S k => replace_from old new k s'
      | O =>
          match old with
          | EmptyString => new +:+ String c (replace_from old new 0 s')
          | _ =>
              if String.prefix old s
              then new +:+ replace_from old new (String.length old - 1) s'
              else String c (replace_from old new 0 s')
          end
      end
  end.

Definition replace (old new s : string) : string := replace_from old new 0 s.

(** [sep.join(l)] *)
Fixpoint join (sep : string) (l : list string) : string :=
  match l with
  | [] => EmptyString
  | [x] => x
  | x :: rest => x +:+ sep +:+ join sep rest
  end.

(** [l.index(x)] for a list of strings: the first position, or
    [ValueError]. *)
Fixpoint index (x : string) (l : list string) : result nat :=
  match l with
  | [] => Raise ValueError
  | y :: rest =>
      if String.eqb y x then Ok 0%nat
      else let! n := index x rest in Ok (S n)
  end.

(** [l[i]] for a list: [IndexError] out of range. *)
Definition item {A : Type} (l : list A) (i : nat) : result A :=
  match nth_error l i with
  | Some a => Ok a
  | None => Raise IndexError
  end.

(** [str(n)] for a natural number. A number [n] has at most [n + 1]
    digits, so the fuel [S n] is never used up. *)
Definition digit (n : nat) : ascii := ascii_of_nat (48 + n).

Fixpoint str_of_nat_fuel (fuel n : nat) (acc : string) : string :=
  match fuel with
  | O => acc
  | S f =>
      let acc' := String (digit (n mod 10)) acc in
      if (n <? 10)%nat then acc' else str_of_nat_fuel f (n / 10) acc'
  end.

Definition str_of_nat (n : nat) : string := str_of_nat_fuel (S n) n EmptyString.

End PyStr.

(** ** The part of BeautifulSoup the parser uses

    A parsed document is a tree. [Text] is a [NavigableString]; [Special] is
    a string of another class (a comment, the text of a [script] or [style]
    element), which [get_text] leaves out; [Tag] carries its name, its
    [class] attribute ([None] when the element has none, otherwise the list
    of whitespace-separated class tokens) and its contents. *)

Module Bs4.

#[warnings="-register-all"]
Inductive node : Type :=
| Text (s : string)
| Special (s : string)
| Tag (name : string) (class_ : option (list string)) (contents : list node).

(** [tag.descendants]: every node below [n], in document order. *)
Fixpoint descendants (n : node) : list node :=
  match n with
  | Tag _ _ cs => flat_map (fun c => c :: descendants c) cs
  | _ => []
  end.

(** [tag.children] *)
Definition children (n : node) : list node :=
  match n with
  | Tag _ _ cs => cs
  | _ => []
  end.

(** The strings [get_text(strip=True)] collects: each [NavigableString]
    below [n], stripped, the empty ones dropped. *)
Definition stripped_string (d : node) : list string :=
  match d with
  | Text s =>
      match PyStr.strip s with
      | EmptyString => []
      | s' => [s']
      end
  | _ => []
  end.

Definition stripped_strings (n : node) : list string :=
  flat_map stripped_string (descendants n).

(** [tag.get_text(strip=True)]: the strings joined with no separator. *)
Definition get_text (n : node) : string :=
  PyStr.join "" (stripped_strings n).

(** [SoupStrainer._matches] on the [class] attribute when the search value
    is a function: the function is tried on every class token, then on
    the tokens joined by one space; on an element without the attribute
    it is called on [None]. *)
Definition matches_fn (f : option string -> bool)
    (class_ : option (list string)) : bool :=
  match class_ with
  | None => f None
  | Some toks =>
      existsb (fun t => f (Some t)) toks || f (Some (PyStr.join " " toks))
  end.

(** The same when the search value is a string. *)
Definition matches_str (want : string) (class_ : option (list string)) : bool :=
  match class_ with
  | None => false
  | Some toks =>
      existsb (fun t => String.eqb t want) toks
      || String.eqb (PyStr.join " " toks) want
  end.

Definition is_tag (name : string) (attr : option (list string) -> bool)
    (d : node) : bool :=
  match d with
  | Tag nm cl _ => String.eqb nm name && attr cl
  | _ => false
  end.

(** [n.find_all(name, class_=...)], [attr] deciding the class. *)
Definition find_all (name : string) (attr : option (list string) -> bool)
    (n : node) : list node :=
  List.filter (is_tag name attr) (descendants n).

(** [n.find(name, class_=...)] *)
Definition find (name : string) (attr : option (list string) -> bool)
    (n : node) : option node :=
  head (find_all name attr n).

(** No constraint on the class: [find_all(name)]. *)
Definition any_class (_ : option (list string)) : bool := true.

End Bs4.

(** ** parser/parser.py *)

Inductive cell : Type :=
| CInt (z : Z)
| CStr (s : string).

Module Parser.
Import Bs4.

Section WithHtml.

(** [_charref.sub(_replace_charref, s)] of the standard [html] module:
    the table-driven replacement of character references. *)
Variable charref_sub : string -> string.

(** [html.unescape] *)
Definition unescape (s : string) : string :=
  if PyStr.contains "&" s then charref_sub s else s.

(** The inner [class_filter] of [_get_element]. *)
Definition class_filter (class_names : list string)
    (classes : option string) : bool :=
  match classes with
  | None => false
  | Some EmptyString => false
  | Some cl => forallb (fun c => PyStr.contains c cl) class_names
  end.

Definition text_has_any (contains_any : list string) (el : node) : bool :=
  existsb (fun sub => PyStr.contains sub (get_text el)) contains_any.

Definition _get_element (tag : string) (class_names : list string)
    (contains_any : option (list string)) (soup : node) : option node :=
  let elements := find_all tag (matches_fn (class_filter class_names)) soup in
  match elements with
  | [] => None
  | first :: _ =>
      match contains_any with
      | None | Some [] => Some first
      | Some subs => List.find (text_has_any subs) elements
      end
  end.

Definition get_price (soup : node) : option string :=
  match _get_element "div" ["x-price-primary"] None soup with
  | None => None
  | Some block =>
      let text := get_text block in
      let text :=
        PyStr.strip (PyStr.replace "/ea" "" (PyStr.replace "US $" "" text)) in
      match text with
      | EmptyString => None
      | _ => Some text
      end
  end.

Definition bold_class : string := "ux-textspans ux-textspans--BOLD".

(** The classification of the first bold span's text. *)
Definition classify_shipping (text : string) : cell :=
  if PyStr.contains "Free" text then CInt 0
  else if PyStr.contains "May not ship to" text
  then CStr "Cannot be delivered to your country"
  else if PyStr.contains "US $" text
  then CStr (PyStr.strip (PyStr.replace "US $" "" text))
  else CStr text.

Definition get_shipping (soup : node) : option cell :=
  match _get_element "div"
          ["ux-labels-values"; "col-12"; "false"; "ux-labels-values--shipping"]
          None soup with
  | None => None
  | Some block =>
      match find_all "span" (matches_str bold_class) block with
      | [] => None
      | first :: _ => Some (classify_shipping (get_text first))
      end
  end.

Definition weekdays : list string :=
  ["Mon"; "Tue"; "Wed"; "Thu"; "Fri"; "Sat"; "Sun"].

Definition get_delivery_time (soup : node) : option string :=
  match _get_element "div" ["ux-labels-values__values-content"]
          (Some weekdays) soup with
  | None => None
  | Some block =>
      match find_all "span" (matches_str bold_class) block with
      | b0 :: b1 :: _ => Some (get_text b0 +:+ " to " +:+ get_text b1)
      | _ =>
          match find "span" (matches_str "ux-textspans") block with
          | Some span => Some (get_text span)
          | None => None
          end
      end
  end.

Definition get_title (soup : node) : option string :=
  match find "title" any_class soup with
  | None => None
  | Some title_tag =>
      let title_raw := get_text title_tag in
      Some (PyStr.replace " | eBay" "" (unescape title_raw))
  end.

Definition get_param (name : string) (soup : node) : option string :=
  match _get_element "dl"
          ["ux-labels-values"; "ux-labels-values--inline"; "col-6"; "false"]
          (Some [name]) soup with
  | None => None
  | Some block =>
      match find_all "span" any_class block with
      | _ :: second :: _ => Some (get_text second)
      | _ => None
      end
  end.

End WithHtml.

(** [html.unescape] and [get_title] when the replacement of character
    references can raise (the conversion of a numeric reference goes through
    [int], which refuses an overlong decimal numeral with [ValueError]). *)
Definition unescape_raising (charref_sub : string -> result string)
    (s : string) : result string :=
  if PyStr.contains "&" s then charref_sub s else Ok s.

Definition get_title_raising (charref_sub : string -> result string)
    (soup : node) : result (option string) :=
  match find "title" any_class soup with
  | None => Ok None
  | Some title_tag =>
      let title_raw := get_text title_tag in
      let! decoded := unescape_raising charref_sub title_raw in
      Ok (Some (PyStr.replace " | eBay" "" decoded))
  end.

End Parser.

(** ** parser/request.py

    The browser session (the shared driver, the pages it can reach, the
    anti-bot state of the site) is a value of an abstract type [World].
    [navigate url second_req w] stands for the three driver steps of
    [get_page] taken together: [driver.get(url)], the wait, and the read of
    [driver.page_source]; it yields the page source, or the exception one of
    the steps raised, and the world afterwards.

    [get_page] below is the [try] block of the function (lines 65 to 78).
    The call [driver = get_driver()] of line 63 comes before the [try] and
    is taken to return here; [Raising.get_page] is the whole function. *)

Module Request.

Definition _BAD_SIGNATURES : list string :=
  ["Checking your browser before accessing";
   "Service Unavailable - Zero size object";
   "To continue, please verify that you are not a robot"].

Definition _is_bad_page (html : string) : bool :=
  match html with
  | EmptyString => true
  | _ => existsb (fun sig => PyStr.contains sig html) _BAD_SIGNATURES
  end.

Section WithDriver.
Context {World : Type}.
Variable navigate : string -> bool -> World -> result string * World.

Definition get_page (url : string) (second_req : bool) (w : World)
    : option string * World :=
  let '(r, w') := navigate url second_req w in
  match r with
  | Raise _ => (None, w')
  | Ok html => if _is_bad_page html then (None, w') else (Some html, w')
  end.

End WithDriver.

End Request.

(** ** parser/request.py: the shared driver

    [_driver] is the module-level variable holding the driver, [None] until
    the first call of [get_driver]. [create_driver] starts the browser and
    loads the home page; [quit] closes it. Both act on the world and are
    taken to return. *)

Module Session.

Section WithBrowser.
Context {World Chrome : Type}.
Variable create_driver : World -> Chrome * World.
Variable quit : Chrome -> World -> World.

(** [get_driver()]: the driver, and [_driver] and the world afterwards. *)
Definition get_driver (_driver : option Chrome) (w : World)
    : Chrome * (option Chrome * World) :=
  match _driver with
  | None => let '(d, w') := create_driver w in (d, (Some d, w'))
  | Some d => (d, (Some d, w))
  end.

(** [shutdown_driver()] *)
Definition shutdown_driver (_driver : option Chrome) (w : World)
    : option Chrome * World :=
  match _driver with
  | Some d => (None, quit d w)
  | None => (None, w)
  end.

(** [n] calls of [get_driver()] in a row: the drivers returned, and
    [_driver] and the world afterwards. *)
Fixpoint get_driver_calls (n : nat) (_driver : option Chrome) (w : World)
    : list Chrome * (option Chrome * World) :=
  match n with
  | O => ([], (_driver, w))
  | S n' =>
      let '(d, (g, w')) := get_driver _driver w in
      let '(ds, final) := get_driver_calls n' g w' in
      (d :: ds, final)
  end.

End WithBrowser.

End Session.

(** ** The parser as [parse_item] sees it

    [parse_item] builds a [Parser] from the page and calls its getters inside
    a [try] block: to the caller each getter either returns a value or raises.
    [new_parser] is the constructor [Parser(page)] for the runs in which it
    returns; it is called one line before the [try] block, and
    [Raising.attempt_body] has it raise. *)

Record ParserOps : Type := mkParserOps {
  parser : Type;
  new_parser : string -> parser;
  op_price : parser -> result (option string);
  op_shipping : parser -> result (option cell);
  op_delivery_time : parser -> result (option string);
  op_title : parser -> result (option string);
  op_param : string -> parser -> result (option string)
}.

(** The parser of [parser/parser.py], over the tree [BeautifulSoup(page,
    "lxml")] builds. [get_title] raises when [html.unescape] does; the other
    getters walk the tree and compare texts, and are given no raising case
    here. *)
Definition bs4_parser (BeautifulSoup : string -> Bs4.node)
    (charref_sub : string -> result string) : ParserOps :=
  {| parser := Bs4.node;
     new_parser := BeautifulSoup;
     op_price := fun p => Ok (Parser.get_price p);
     op_shipping := fun p => Ok (Parser.get_shipping p);
     op_delivery_time := fun p => Ok (Parser.get_delivery_time p);
     op_title := fun p => Parser.get_title_raising charref_sub p;
     op_param := fun name p => Ok (Parser.get_param name p) |}.

(** What a run does to the outside, in order. *)
Record update : Type := mkUpdate {
  range : string;
  values : list (list cell)
}.

Inductive event : Type :=
| EvFetch (url : string) (second_req : bool)
| EvParse (page : string)
| EvBatchUpdate (updates : list update).

(** ** main.py *)

Module Main.

Record Item : Type := mkItem {
  link : string;
  price : option string;
  shipping : option cell;
  delivery : option string;
  title : option string;
  condition : option string;
  mpn : option string;
  brand : option string;
  model : option string
}.

(** [Item(link=link)] *)
Definition new_Item (l : string) : Item :=
  mkItem l None None None None None None None None.

Definition set_price (it : Item) (v : option string) : Item :=
  mkItem (link it) v (shipping it) (delivery it) (title it) (condition it)
    (mpn it) (brand it) (model it).
Definition set_shipping (it : Item) (v : option cell) : Item :=
  mkItem (link it) (price it) v (delivery it) (title it) (condition it)
    (mpn it) (brand it) (model it).
Definition set_delivery (it : Item) (v : option string) : Item :=
  mkItem (link it) (price it) (shipping it) v (title it) (condition it)
    (mpn it) (brand it) (model it).
Definition set_title (it : Item) (v : option string) : Item :=
  mkItem (link it) (price it) (shipping it) (delivery it) v (condition it)
    (mpn it) (brand it) (model it).
Definition set_condition (it : Item) (v : option string) : Item :=
  mkItem (link it) (price it) (shipping it) (delivery it) (title it) v
    (mpn it) (brand it) (model it).
Definition set_mpn (it : Item) (v : option string) : Item :=
  mkItem (link it) (price it) (shipping it) (delivery it) (title it)
    (condition it) v (brand it) (model it).
Definition set_brand (it : Item) (v : option string) : Item :=
  mkItem (link it) (price it) (shipping it) (delivery it) (title it)
    (condition it) (mpn it) v (model it).
Definition set_model (it : Item) (v : option string) : Item :=
  mkItem (link it) (price it) (shipping it) (delivery it) (title it)
    (condition it) (mpn it) (brand it) v.

(** *** get_links *)

(** The rows below the header: for each, the stripped cell of the link
    column, kept when it is not empty. *)
Fixpoint collect_links (link_col_index : nat) (rows : list (list string))
    : result (list string) :=
  match rows with
  | [] => Ok []
  | row :: rest =>
      let! cell_ := PyStr.item row link_col_index in
      let l := PyStr.strip cell_ in
      let! links := collect_links link_col_index rest in
      Ok (match l with EmptyString => links | _ => l :: links end)
  end.

Definition get_links (values : list (list string)) : result (list string) :=
  match values with
  | [] => Ok []
  | headers :: rows =>
      match PyStr.index "link" headers with
      | Raise _ =>
          Raise (RuntimeError
                   "Column 'link' not found in the first row of the sheet")
      | Ok link_col_index => collect_links link_col_index rows
      end
  end.

(** *** column_to_letter *)

(** [chr] *)
Definition chr (z : Z) : ascii := ascii_of_nat (Z.to_nat z).

Equations? column_to_letter_loop (col : Z) (res : string) : string
  by wf (Z.to_nat col) lt :=
  column_to_letter_loop col res with Z_gt_dec col 0 => {
    | left _ =>
        column_to_letter_loop ((col - 1) / 26)
          (String (chr (65 + (col - 1) mod 26)) res)
    | right _ => res }.
Proof.
  assert (0 <= (col - 1) / 26 < col)%Z; [| lia].
  split; [apply Z.div_pos; lia |].
  apply Z.le_lt_trans with (col - 1)%Z; [| lia].
  apply Z.div_le_upper_bound; lia.
Qed.

Definition column_to_letter (col : Z) : string :=
  column_to_letter_loop col EmptyString.


(** *** update_sheet *)

(** The inner [col]: the 1-based position of a header. *)
Definition col (headers : list string) (name : string) : result nat :=
  match PyStr.index name headers with
  | Ok i => Ok (i + 1)
  | Raise _ =>
      Raise (RuntimeError ("Column '" +:+ name +:+ "' not found in the sheet"))
  end.

Record columns : Type := mkColumns {
  col_link : nat;
  col_price : nat;
  col_shipping : nat;
  col_delivery : nat;
  col_title : nat;
  col_condition : nat;
  col_mpn : nat;
  col_brand : nat;
  col_model : nat
}.

Definition resolve_columns (headers : list string) : result columns :=
  let! c_link := col headers "link" in
  let! c_price := col headers "price" in
  let! c_shipping := col headers "shipping price" in
  let! c_delivery := col headers "delivery time" in
  let! c_title := col headers "title" in
  let! c_condition := col headers "condition" in
  let! c_mpn := col headers "mpn" in
  let! c_brand := col headers "brand" in
  let! c_model := col headers "model" in
  Ok (mkColumns c_link c_price c_shipping c_delivery c_title c_condition
        c_mpn c_brand c_model).

(** The inner [val], on a text field and on the shipping field. *)
Definition val (v : option string) : cell :=
  match v with
  | None => CStr ""
  | Some s => CStr s
  end.

Definition val_cell (v : option cell) : cell :=
  match v with
  | None => CStr ""
  | Some c => c
  end.

(** The inner [add]: one single-cell update in A1 notation. *)
Definition add (row_idx : nat) (col_idx : nat) (value : cell) : update :=
  mkUpdate (column_to_letter (Z.of_nat col_idx) +:+ PyStr.str_of_nat row_idx)
           [[value]].

Definition item_updates (cs : columns) (row_idx : nat) (item : Item)
    : list update :=
  [ add row_idx (col_price cs) (val (price item));
    add row_idx (col_shipping cs) (val_cell (shipping item));
    add row_idx (col_delivery cs) (val (delivery item));
    add row_idx (col_title cs) (val (title item));
    add row_idx (col_condition cs) (val (condition item));
    add row_idx (col_mpn cs) (val (mpn item));
    add row_idx (col_brand cs) (val (brand item));
    add row_idx (col_model cs) (val (model item)) ].

(** The loop over the rows below the header, [updates] being the list built
    so far. *)
Fixpoint rows_updates (cs : columns) (items : gmap string Item)
    (row_idx : nat) (rows : list (list string)) (updates : list update)
    : result (list update) :=
  match rows with
  | [] => Ok updates
  | row :: rest =>
      let! cell_ := PyStr.item row (col_link cs - 1) in
      match items !! PyStr.strip cell_ with
      | None => rows_updates cs items (S row_idx) rest updates
      | Some item =>
          rows_updates cs items (S row_idx) rest
            (updates ++ item_updates cs row_idx item)
      end
  end.

(** The updates [update_sheet] sends, [[]] when it sends none. *)
Definition sheet_updates (vals : list (list string))
    (items : gmap string Item) : result (list update) :=
  match vals with
  | [] => Ok []
  | headers :: rows =>
      let! cs := resolve_columns headers in
      rows_updates cs items 2 rows []
  end.

Section WithCollaborators.
Context {World : Type}.
Variable navigate : string -> bool -> World -> result string * World.
Variable P : ParserOps.

Record state : Type := mkState {
  world : World;
  trace : list event
}.

Definition log (e : event) (st : state) : state :=
  mkState (world st) (trace st ++ [e]).

(** [get_page(link, second_req=...)] as a step of the run. *)
Definition fetch (url : string) (second_req : bool) (st : state)
    : option string * state :=
  let '(page, w') := Request.get_page navigate url second_req (world st) in
  (page, mkState w' (trace st ++ [EvFetch url second_req])).

(** *** parse_item *)

Definition attempts : nat := 3.

(** One assignment [item.f = parser.get_f()] of the [try] block. *)
Definition assign {A : Type} (got : result A) (set : Item -> A -> Item)
    (item : Item) : Item * result unit :=
  match got with
  | Ok v => (set item v, Ok tt)
  | Raise e => (item, Raise e)
  end.

Definition and_then (m1 m2 : Item -> Item * result unit) (item : Item)
    : Item * result unit :=
  match m1 item with
  | (item', Ok _) => m2 item'
  | (item', Raise e) => (item', Raise e)
  end.

(** The body of the [try] block: the eight assignments in order. *)
Definition try_body (p : parser P) : Item -> Item * result unit :=
  and_then (assign (op_price P p) set_price)
  (and_then (assign (op_shipping P p) set_shipping)
  (and_then (assign (op_delivery_time P p) set_delivery)
  (and_then (assign (op_title P p) set_title)
  (and_then (assign (op_param P "Condition" p) set_condition)
  (and_then (assign (op_param P "MPN" p) set_mpn)
  (and_then (assign (op_param P "Brand" p) set_brand)
            (assign (op_param P "Model" p) set_model))))))).

(** How one pass of the loop body ends. *)
Inductive outcome : Type :=
| Returned (item : Item)
| Continue (item : Item).

(** One pass of the [for attempt in range(1, attempts + 1)] body. *)
Definition attempt_body (l : string) (attempt : nat) (item : Item)
    (st : state) : outcome * state :=
  let '(page, st1) := fetch l (1 <? attempt) st in
  match page with
  | None | Some EmptyString => (Continue item, st1)
  | Some pg =>
      let st2 := log (EvParse pg) st1 in
      match try_body (new_parser P pg) item with
      | (item', Ok _) => (Returned item', st2)
      | (item', Raise _) => (Continue item', st2)
      end
  end.

Fixpoint attempts_loop (l : string) (todo : list nat) (item : Item)
    (st : state) : Item * state :=
  match todo with
  | [] => (item, st)
  | attempt :: rest =>
      match attempt_body l attempt item st with
      | (Returned item', st') => (item', st')
      | (Continue item', st') => attempts_loop l rest item' st'
      end
  end.

Definition parse_item (l : string) (st : state) : Item * state :=
  attempts_loop l (List.seq 1 attempts) (new_Item l) st.

(** *** main *)

(** The loop of [main] over the links, [items] being the dict so far. *)
Fixpoint resolve_all (links : list string) (items : gmap string Item)
    (st : state) : gmap string Item * state :=
  match links with
  | [] => (items, st)
  | l :: rest =>
      let '(item, st') := parse_item l st in
      resolve_all rest (<[l := item]> items) st'
  end.

Definition update_sheet (vals : list (list string))
    (items : gmap string Item) (st : state) : result unit * state :=
  match sheet_updates vals items with
  | Raise e => (Raise e, st)
  | Ok [] => (Ok tt, st)
  | Ok updates => (Ok tt, log (EvBatchUpdate updates) st)
  end.

(** [main], on a sheet whose cells are [vals] at both reads. *)
Definition main (vals : list (list string)) (st : state)
    : result unit * state :=
  match get_links vals with
  | Raise e => (Raise e, st)
  | Ok links =>
      let '(items, st') := resolve_all links ∅ st in
      update_sheet vals items st'
  end.

End WithCollaborators.

End Main.

(** ** main.py and parser/request.py, with the two calls that sit before a
       [try] block free to raise

    [get_driver] stands for [driver = get_driver()] (request.py, line 63):
    it hands out the shared driver, starting the browser at the first call,
    and raises when the browser cannot be started. [build_parser] stands
    for [parser = Parser(page)] (main.py, line 150), which parses the page
    with BeautifulSoup and raises on a page the tree builder refuses. No
    handler of the program covers these two calls: their exceptions leave
    [parse_item] and [main]. *)

Module Raising.
Import Main.

(** How one pass of the loop body ends: it returns the record, goes on to
    the next attempt, or is left by an exception. *)
Inductive outcome : Type :=
| Returned (item : Item)
| Continue (item : Item)
| Escaped (e : exn).

Section WithCollaborators.
Context {World : Type}.
Variable get_driver : World -> result unit * World.
Variable navigate : string -> bool -> World -> result string * World.
Variable P : ParserOps.
Variable build_parser : string -> result (parser P).

(** [get_page]: the call of [get_driver], then the [try] block. *)
Definition get_page (url : string) (second_req : bool) (w : World)
    : result (option string) * World :=
  let '(driver, w1) := get_driver w in
  match driver with
  | Raise e => (Raise e, w1)
  | Ok _ =>
      let '(page, w2) := Request.get_page navigate url second_req w1 in
      (Ok page, w2)
  end.

(** [get_page(link, second_req=...)] as a step of the run. The fetch is
    recorded when the driver was there to make it. *)
Definition fetch (url : string) (second_req : bool) (st : state)
    : result (option string) * state :=
  let '(got, w') := get_page url second_req (world st) in
  match got with
  | Raise e => (Raise e, mkState w' (trace st))
  | Ok page => (Ok page, mkState w' (trace st ++ [EvFetch url second_req]))
  end.

(** One pass of the [for attempt in range(1, attempts + 1)] body. *)
Definition attempt_body (l : string) (attempt : nat) (item : Item)
    (st : state) : outcome * state :=
  let '(got, st1) := fetch l (1 <? attempt) st in
  match got with
  | Raise e => (Escaped e, st1)
  | Ok None | Ok (Some EmptyString) => (Continue item, st1)
  | Ok (Some pg) =>
      match build_parser pg with
      | Raise e => (Escaped e, st1)
      | Ok p =>
          let st2 := log (EvParse pg) st1 in
          match try_body P p item with
          | (item', Ok _) => (Returned item', st2)
          | (item', Raise _) => (Continue item', st2)
          end
      end
  end.

Fixpoint attempts_loop (l : string) (todo : list nat) (item : Item)
    (st : state) : result Item * state :=
  match todo with
  | [] => (Ok item, st)
  | attempt :: rest =>
      match attempt_body l attempt item st with
      | (Returned item', st') => (Ok item', st')
      | (Continue item', st') => attempts_loop l rest item' st'
      | (Escaped e, st') => (Raise e, st')
      end
  end.

Definition parse_item (l : string) (st : state) : result Item * state :=
  attempts_loop l (List.seq 1 attempts) (new_Item l) st.

(** The loop of [main] over the links: an exception that leaves
    [parse_item] ends it. *)
Fixpoint resolve_all (links : list string) (items : gmap string Item)
    (st : state) : result (gmap string Item) * state :=
  match links with
  | [] => (Ok items, st)
  | l :: rest =>
      match parse_item l st with
      | (Ok item, st') => resolve_all rest (<[l := item]> items) st'
      | (Raise e, st') => (Raise e, st')
      end
  end.

Definition main (vals : list (list string)) (st : state)
    : result unit * state :=
  match get_links vals with
  | Raise e => (Raise e, st)
  | Ok links =>
      match resolve_all links ∅ st with
      | (Raise e, st') => (Raise e, st')
      | (Ok items, st') => update_sheet vals items st'
      end
  end.

End WithCollaborators.

End Raising.


(** ** Vocabulary of the properties on column labels *)

Module Labels.
Local Open Scope Z_scope.

(** The number a column label stands for in bijective base 26: the digits
    are A = 1, ..., Z = 26, the most significant first. *)
Definition letter_digit (c : ascii) : Z := Z.of_nat (nat_of_ascii c) - 64.

Fixpoint letters_value_from (acc : Z) (s : string) : Z :=
  match s with
  | EmptyString => acc
  | String c s' => letters_value_from (26 * acc + letter_digit c) s'
  end.

Definition letters_value (s : string) : Z := letters_value_from 0 s.

Definition is_upper (c : ascii) : bool :=
  (65 <=? Z.of_nat (nat_of_ascii c)) && (Z.of_nat (nat_of_ascii c) <=? 90).

Fixpoint all_upper (s : string) : bool :=
  match s with
  | EmptyString => true
  | String c s' => is_upper c && all_upper s'
  end.

End Labels.

(** ** Vocabulary of the properties on the field extractor, and trees for
       the worked examples *)

Module Fixtures.
Import Bs4 Parser.

(** The blocks each getter chooses among, in document order. *)
Definition shipping_classes : list string :=
  ["ux-labels-values"; "col-12"; "false"; "ux-labels-values--shipping"].

Definition param_classes : list string :=
  ["ux-labels-values"; "ux-labels-values--inline"; "col-6"; "false"].

Definition delivery_candidates (soup : node) : list node :=
  find_all "div"
    (matches_fn (class_filter ["ux-labels-values__values-content"])) soup.

Definition param_candidates (soup : node) : list node :=
  find_all "dl" (matches_fn (class_filter param_classes)) soup.

(** The [span] elements among the children of a block, for the reading of
    "second child span" by which only direct children count. *)
Definition child_spans (block : node) : list node :=
  List.filter (is_tag "span" any_class) (children block).

(** Trees for the worked examples. *)
Definition plain_span (text : string) : node :=
  Tag "span" (Some ["ux-textspans"]) [Text text].

Definition bold_span (text : string) : node :=
  Tag "span" (Some ["ux-textspans"; "ux-textspans--BOLD"]) [Text text].

Definition page (body : list node) : node :=
  Tag "[document]" None [Tag "html" None [Tag "body" None body]].

Definition delivery_block : node :=
  Tag "div" (Some ["ux-labels-values__values-content"])
    [Tag "div" None
       [plain_span "Estimated between "; bold_span "Mon, Jun 2";
        plain_span " and "; bold_span "Fri, Jun 6"]].

Definition delivery_page : node :=
  page [Tag "div" (Some ["ux-labels-values__values-content"])
          [plain_span "30 days returns"];
        delivery_block].

Definition shipping_block (text : string) : node :=
  Tag "div" (Some shipping_classes)
    [plain_span "Shipping:"; bold_span text; plain_span "Standard Shipping"].

Definition titled_page (text : string) : node :=
  Tag "[document]" None
    [Tag "html" None [Tag "head" None [Tag "title" None [Text text]]]].

(** A label and a value as eBay lays them out: each span inside its own
    [dt] or [dd]. *)
Definition brand_block : node :=
  Tag "dl" (Some param_classes)
    [Tag "dt" None [plain_span "Brand"]; Tag "dd" None [plain_span "Acme"]].

(** A block whose label span wraps a second span. *)
Definition nested_block : node :=
  Tag "dl" (Some param_classes)
    [Tag "span" None [Tag "span" None [Text "Brand"]];
     Tag "span" None [Text "Acme"]].

(** A values block that holds a single bold span, in front of a span
    that is not bold. *)
Definition one_bold_block : node :=
  Tag "div" (Some ["ux-labels-values__values-content"])
    [bold_span "Tue, Jun 3"; plain_span "approx."].

Definition one_bold_page : node := page [one_bold_block].

(** A values block without bold span. *)
Definition no_bold_block : node :=
  Tag "div" (Some ["ux-labels-values__values-content"])
    [plain_span "Estimated Fri, Jun 6"; plain_span "to 10001"].

Definition no_bold_page : node := page [no_bold_block].

(** The spans of a block that carry the class [ux-textspans] and are not
    bold, for the reading of "plain span" by which a bold span is not
    plain. *)
Definition plain_spans (block : node) : list node :=
  List.filter
    (fun d => is_tag "span" (matches_str "ux-textspans") d
              && negb (is_tag "span" (matches_str bold_class) d))
    (descendants block).

(** The price block of a listing sold by the unit. *)
Definition price_page : node :=
  page [Tag "div" (Some ["x-price-primary"]) [plain_span "US $49.99/ea"]].

End Fixtures.

(** ** Vocabulary of the properties on the resolver and the run *)

Module Observe.
Import Main.

Definition is_fetch (e : event) : bool :=
  match e with EvFetch _ _ => true | _ => false end.

Definition is_parse (e : event) : bool :=
  match e with EvParse _ => true | _ => false end.

Definition is_batch_update (e : event) : bool :=
  match e with EvBatchUpdate _ => true | _ => false end.

Definition count_fetch (evs : list event) : nat :=
  length (List.filter is_fetch evs).

Definition count_parse (evs : list event) : nat :=
  length (List.filter is_parse evs).

Definition count_batch_update (evs : list event) : nat :=
  length (List.filter is_batch_update evs).

(** The getters of the [try] block are numbered 0 to 7 in the order of the
    assignments. [getter_raises p k e]: getter [k] raises [e].
    [getter_gave p k it]: getter [k] returns the value field [k] of [it]
    holds. [field_kept k a b]: field [k] is the same in [a] and [b]. *)
Definition getter_raises (P : ParserOps) (p : parser P) (k : nat) (e : exn)
    : Prop :=
  match k with
  | 0 => op_price P p = Raise e
  | 1 => op_shipping P p = Raise e
  | 2 => op_delivery_time P p = Raise e
  | 3 => op_title P p = Raise e
  | 4 => op_param P "Condition" p = Raise e
  | 5 => op_param P "MPN" p = Raise e
  | 6 => op_param P "Brand" p = Raise e
  | 7 => op_param P "Model" p = Raise e
  | _ => False
  end.

Definition getter_gave (P : ParserOps) (p : parser P) (k : nat) (it : Item)
    : Prop :=
  match k with
  | 0 => op_price P p = Ok (price it)
  | 1 => op_shipping P p = Ok (shipping it)
  | 2 => op_delivery_time P p = Ok (delivery it)
  | 3 => op_title P p = Ok (title it)
  | 4 => op_param P "Condition" p = Ok (condition it)
  | 5 => op_param P "MPN" p = Ok (mpn it)
  | 6 => op_param P "Brand" p = Ok (brand it)
  | 7 => op_param P "Model" p = Ok (model it)
  | _ => False
  end.

Definition field_kept (k : nat) (a b : Item) : Prop :=
  match k with
  | 0 => price a = price b
  | 1 => shipping a = shipping b
  | 2 => delivery a = delivery b
  | 3 => title a = title b
  | 4 => condition a = condition b
  | 5 => mpn a = mpn b
  | 6 => brand a = brand b
  | 7 => model a = model b
  | _ => True
  end.

(** The results of the successive calls of [parse_item] in the loop of
    [main], in input order. *)
Fixpoint resolutions {World : Type}
    (navigate : string -> bool -> World -> result string * World)
    (P : ParserOps) (links : list string) (st : state)
    : list (string * Item) :=
  match links with
  | [] => []
  | l :: rest =>
      let '(item, st') := parse_item navigate P l st in
      (l, item) :: resolutions navigate P rest st'
  end.

(** The record of the last resolution of [l] in such a list. *)
Definition last_resolution (l : string) (rs : list (string * Item))
    : option Item :=
  fold_left (fun acc r => if String.eqb (fst r) l then Some (snd r) else acc)
    rs None.

(** The column names [update_sheet] looks up, in the order of its lookups. *)
Definition required_columns : list string :=
  ["link"; "price"; "shipping price"; "delivery time"; "title";
   "condition"; "mpn"; "brand"; "model"].

Definition has_column (headers : list string) (name : string) : bool :=
  existsb (String.eqb name) headers.

Definition first_missing (headers : list string) : option string :=
  List.find (fun name => negb (has_column headers name)) required_columns.

(** *** Collaborators for the worked examples *)

(** A site that never answers: every navigation raises. *)
Definition blocked_navigate (_ : string) (_ : bool) (w : unit)
    : result string * unit :=
  (Raise (OtherError "timeout"), w).

(** A site that serves a page which names the number of the request. *)
Definition counting_navigate (_ : string) (_ : bool) (n : nat)
    : result string * nat :=
  (Ok ("page " +:+ PyStr.str_of_nat n), S n).

(** A parser whose price is the page itself and whose other getters find
    nothing. *)
Definition echo_parser : ParserOps :=
  {| parser := string;
     new_parser := fun page => page;
     op_price := fun p => Ok (Some p);
     op_shipping := fun _ => Ok None;
     op_delivery_time := fun _ => Ok None;
     op_title := fun _ => Ok None;
     op_param := fun _ _ => Ok None |}.

(** A pass of [Main] seen as a pass of [Raising]. *)
Definition lift_outcome (o : Main.outcome) : Raising.outcome :=
  match o with
  | Main.Returned item => Raising.Returned item
  | Main.Continue item => Raising.Continue item
  end.

(** A browser that is there, and one that cannot be started. *)
Definition driver_ready {World : Type} (w : World) : result unit * World :=
  (Ok tt, w).

Definition driver_missing {World : Type} (w : World) : result unit * World :=
  (Raise (OtherError "WebDriverException"), w).

(** A constructor that returns the page as the parser, as [echo_parser]
    takes it, and one that rejects every page. *)
Definition build_echo (page : string) : result string := Ok page.

Definition build_rejects (_ : string) : result string :=
  Raise (OtherError "UnicodeEncodeError").

(** The same parser with a shipping getter that raises. *)
Definition faulty_parser : ParserOps :=
  {| parser := string;
     new_parser := fun page => page;
     op_price := fun p => Ok (Some p);
     op_shipping := fun _ => Raise (OtherError "shipping");
     op_delivery_time := fun _ => Ok None;
     op_title := fun _ => Ok None;
     op_param := fun _ _ => Ok None |}.

(** A sheet whose header row lacks the [mpn] column. *)
Definition headers_without_mpn : list string :=
  ["link"; "price"; "shipping price"; "delivery time"; "title"; "condition";
   "brand"; "model"].

Definition sheet_without_mpn : list (list string) :=
  [headers_without_mpn;
   ["https://www.ebay.com/itm/1"; ""; ""; ""; ""; ""; ""; ""]].

End Observe.

(** ** Vocabulary of the further properties *)

Module Shape.

(** A text without white space at its start, and at its end. *)
Definition starts_clean (s : string) : Prop :=
  match s with
  | EmptyString => True
  | String c _ => PyStr.is_space c = false
  end.

Fixpoint last_char (s : string) : option ascii :=
  match s with
  | EmptyString => None
  | String c EmptyString => Some c
  | String _ s' => last_char s'
  end.

Definition ends_clean (s : string) : Prop :=
  match last_char s with
  | None => True
  | Some c => PyStr.is_space c = false
  end.

(** The links a sheet holds: the stripped cells of column [idx] (counted
    from 0) of the rows below the header, the empty ones left out. *)
Definition link_cell (idx : nat) (row : list string) : string :=
  PyStr.strip (nth idx row "").

Definition nonempty (s : string) : bool :=
  match s with
  | EmptyString => false
  | _ => true
  end.

Definition link_cells (idx : nat) (rows : list (list string)) : list string :=
  List.filter nonempty (map (link_cell idx) rows).

(** The columns [update_sheet] resolves, in the order of its lookups, and
    the eight it writes to. *)
Definition column_list (cs : Main.columns) : list nat :=
  [Main.col_link cs; Main.col_price cs; Main.col_shipping cs;
   Main.col_delivery cs; Main.col_title cs; Main.col_condition cs;
   Main.col_mpn cs; Main.col_brand cs; Main.col_model cs].

Definition output_columns (cs : Main.columns) : list nat :=
  tl (column_list cs).

(** The number a decimal numeral stands for, and the test that a text holds
    decimal digits only. *)
Definition digit_value (c : ascii) : nat := nat_of_ascii c - 48.

Fixpoint digits_value_from (acc : nat) (s : string) : nat :=
  match s with
  | EmptyString => acc
  | String c s' => digits_value_from (10 * acc + digit_value c) s'
  end.

Definition digits_value (s : string) : nat := digits_value_from 0 s.

Definition is_digit (c : ascii) : bool :=
  (48 <=? nat_of_ascii c) && (nat_of_ascii c <=? 57).

Fixpoint all_digits (s : string) : bool :=
  match s with
  | EmptyString => true
  | String c s' => is_digit c && all_digits s'
  end.

(** The cell an update addresses: row and column, both counted from 1. *)
Definition a1 (pos : nat * nat) : string :=
  Main.column_to_letter (Z.of_nat (snd pos)) +:+ PyStr.str_of_nat (fst pos).

(** The rows of a sheet that have a record in [items], and the cells
    [update_sheet] addresses for the rows from number [row_idx] on. *)
Definition row_matched (items : gmap string Main.Item) (idx : nat)
    (row : list string) : bool :=
  match items !! link_cell idx row with
  | Some _ => true
  | None => false
  end.

Fixpoint written_cells (cs : Main.columns) (items : gmap string Main.Item)
    (row_idx : nat) (rows : list (list string)) : list (nat * nat) :=
  match rows with
  | [] => []
  | row :: rest =>
      (if row_matched items (Main.col_link cs - 1) row
       then map (fun c => (row_idx, c)) (output_columns cs)
       else [])
      ++ written_cells cs items (S row_idx) rest
  end.

(** The updates [update_sheet] builds when no row is too short. *)
Fixpoint expected_updates (cs : Main.columns) (items : gmap string Main.Item)
    (row_idx : nat) (rows : list (list string)) : list update :=
  match rows with
  | [] => []
  | row :: rest =>
      match items !! link_cell (Main.col_link cs - 1) row with
      | Some item => Main.item_updates cs row_idx item
      | None => []
      end
      ++ expected_updates cs items (S row_idx) rest
  end.

(** The links fetched, in the order of the fetches. *)
Definition fetched_url (e : event) : list string :=
  match e with
  | EvFetch url _ => [url]
  | _ => []
  end.

Definition fetched_urls (evs : list event) : list string :=
  flat_map fetched_url evs.

(** The fetches of one resolution when all three attempts are made. *)
Definition three_fetches (l : string) : list event :=
  [EvFetch l false; EvFetch l true; EvFetch l true].

(** A sheet for the worked examples: the nine columns in the order of the
    lookups, a row with a padded link, a row without link, a row with a
    second link. *)
Definition nine_columns : Main.columns := Main.mkColumns 1 2 3 4 5 6 7 8 9.

Definition nine_headers : list string :=
  ["link"; "price"; "shipping price"; "delivery time"; "title"; "condition";
   "mpn"; "brand"; "model"].

Definition three_rows : list (list string) :=
  [["  u1 "; "old"; ""; ""; ""; ""; ""; ""; ""];
   [""; ""; ""; ""; ""; ""; ""; ""; ""];
   ["u2"; "9.99"; ""; ""; ""; ""; ""; ""; ""]].

End Shape.

(** * Properties *)

(** ** Facts about strings *)

Lemma append_cons (x : ascii) (a b : string) :
  String x a +:+ b = String x (a +:+ b).
Proof. reflexivity. Qed.

Lemma append_nil_l (a : string) : "" +:+ a = a.
Proof. reflexivity. Qed.

Lemma append_assoc (a b c : string) : (a +:+ b) +:+ c = a +:+ (b +:+ c).
Proof.
  induction a as [| x a IH]; [reflexivity |].
  rewrite !append_cons. now f_equal.
Qed.

Lemma append_nil_r (a : string) : a +:+ "" = a.
Proof.
  induction a as [| x a IH]; [reflexivity |].
  rewrite append_cons. now f_equal.
Qed.

Lemma prefix_cons (a b : ascii) (s1 s2 : string) :
  String.prefix (String a s1) (String b s2)
  = if ascii_dec a b then String.prefix s1 s2 else false.
Proof. reflexivity. Qed.

Lemma prefix_nil (s : string) : String.prefix "" s = true.
Proof. destruct s; reflexivity. Qed.

Lemma prefix_append (old t : string) : String.prefix old (old +:+ t) = true.
Proof.
  induction old as [| a old IH]; [apply prefix_nil |].
  rewrite append_cons, prefix_cons.
  destruct (ascii_dec a a); [exact IH | congruence].
Qed.

Lemma contains_cons (sub : string) (c : ascii) (s : string) :
  PyStr.contains sub (String c s)
  = String.prefix sub (String c s) || PyStr.contains sub s.
Proof. reflexivity. Qed.

(** Once an occurrence is matched its remaining characters are dropped. *)
Lemma replace_from_skip (old new u : string) :
  forall t,
    old <> "" ->
    PyStr.replace_from old new (String.length u) (u +:+ t)
    = PyStr.replace_from old new 0 t.
Proof.
  induction u as [| c u IH]; intros t Hold; [reflexivity |].
  rewrite append_cons. simpl. now apply IH.
Qed.

(** [replace] on a string that starts with an occurrence. *)
Lemma replace_prefix (a : ascii) (old' new t : string) :
  PyStr.replace (String a old') new (String a old' +:+ t)
  = new +:+ PyStr.replace (String a old') new t.
Proof.
  unfold PyStr.replace. rewrite append_cons.
  cbn [PyStr.replace_from].
  rewrite <- (append_cons a old' t), prefix_append.
  replace (String.length (String a old') - 1) with (String.length old')
    by (simpl; lia).
  now rewrite replace_from_skip.
Qed.

(** [replace] on a string that does not start with an occurrence. *)
Lemma replace_no_prefix (old new : string) (c : ascii) (s : string) :
  old <> "" ->
  String.prefix old (String c s) = false ->
  PyStr.replace old new (String c s) = String c (PyStr.replace old new s).
Proof.
  intros Hold Hp. unfold PyStr.replace. cbn [PyStr.replace_from].
  destruct old as [| a old']; [congruence |]. now rewrite Hp.
Qed.

(** [replace] leaves a string without occurrence as it is. *)
Lemma replace_absent (old new s : string) :
  PyStr.contains old s = false -> PyStr.replace old new s = s.
Proof.
  induction s as [| c s IH].
  - destruct old; [discriminate | reflexivity].
  - rewrite contains_cons. intros H.
    apply orb_false_iff in H as [Hp Hc].
    rewrite replace_no_prefix; [now rewrite IH | | exact Hp].
    intros ->. discriminate Hp.
Qed.

(** The site suffix does not overlap itself: an occurrence that starts
    inside [u] and ends inside a suffix appended to [u] would need a second
    space in the suffix. *)
Lemma site_suffix_no_border (c : ascii) (u : string) :
  String.prefix " | eBay" (String c u) = false ->
  String.prefix " | eBay" (String c u +:+ " | eBay") = false.
Proof.
  intros H. rewrite append_cons. rewrite prefix_cons in *.
  destruct (ascii_dec " " c) as [<- |]; [| reflexivity].
  do 6 (destruct u as [| c u];
        [reflexivity |
         rewrite append_cons; rewrite prefix_cons in *;
         destruct (ascii_dec _ c) as [<- |]; [| reflexivity]]).
  rewrite prefix_nil in H. discriminate H.
Qed.

(** A string that ends with its only occurrence of the site suffix loses
    exactly that suffix. *)
Lemma replace_site_suffix (base : string) :
  PyStr.contains " | eBay" base = false ->
  PyStr.replace " | eBay" "" (base +:+ " | eBay") = base.
Proof.
  induction base as [| c base IH]; [reflexivity |].
  rewrite contains_cons. intros H.
  apply orb_false_iff in H as [Hp Hc].
  pose proof (site_suffix_no_border c base Hp) as Hb.
  rewrite append_cons in *.
  rewrite replace_no_prefix; [now rewrite IH | discriminate | exact Hb].
Qed.

(** ** column_to_letter *)

Module ColumnLetters.
Import Main Labels.
Local Open Scope Z_scope.

Lemma loop_pos col res :
  0 < col ->
  column_to_letter_loop col res =
  column_to_letter_loop ((col - 1) / 26)
    (String (chr (65 + (col - 1) mod 26)) res).
Proof.
  intros H. rewrite column_to_letter_loop_equation_1.
  destruct (Z_gt_dec col 0); [reflexivity | lia].
Qed.

Lemma loop_nonpos col res : col <= 0 -> column_to_letter_loop col res = res.
Proof.
  intros H. rewrite column_to_letter_loop_equation_1.
  destruct (Z_gt_dec col 0); [lia | reflexivity].
Qed.

Lemma div26_bounds col : 0 < col -> 0 <= (col - 1) / 26 < col.
Proof.
  intros H. split; [apply Z.div_pos; lia |].
  apply Z.le_lt_trans with (col - 1); [| lia].
  apply Z.div_le_upper_bound; lia.
Qed.

(** The accumulator of the loop is a suffix of the result. *)
Lemma loop_app col :
  forall res,
    column_to_letter_loop col res = column_to_letter_loop col "" +:+ res.
Proof.
  destruct (Z_le_gt_dec col 0) as [Hle | Hgt].
  { intros res. rewrite !loop_nonpos by lia. reflexivity. }
  assert (H0 : 0 <= col) by lia. revert col H0 Hgt.
  refine (Zlt_0_ind _ _). intros col IH _ Hgt res.
  rewrite (loop_pos col res), (loop_pos col "") by lia.
  set (q := (col - 1) / 26). set (c := chr (65 + (col - 1) mod 26)).
  destruct (Z_le_gt_dec q 0) as [Hq | Hq].
  - rewrite !loop_nonpos by lia. reflexivity.
  - pose proof (div26_bounds col ltac:(lia)) as Hb. fold q in Hb.
    rewrite (IH q ltac:(lia) Hq (String c res)).
    rewrite (IH q ltac:(lia) Hq (String c "")).
    rewrite append_assoc. reflexivity.
Qed.

(** One round of the loop, read from the result: the label of [col] is the
    label of the quotient followed by the letter of the remainder. *)
Lemma column_to_letter_step col :
  0 < col ->
  column_to_letter col =
  column_to_letter ((col - 1) / 26)
    +:+ String (chr (65 + (col - 1) mod 26)) "".
Proof.
  intros H. unfold column_to_letter at 1. rewrite loop_pos by lia.
  apply loop_app.
Qed.

Lemma letters_value_from_snoc s :
  forall acc c,
    letters_value_from acc (s +:+ String c "")
    = 26 * letters_value_from acc s + letter_digit c.
Proof.
  induction s as [| a s IH]; intros acc c; [reflexivity |].
  rewrite append_cons. simpl. apply IH.
Qed.

Lemma all_upper_snoc s c :
  all_upper (s +:+ String c "") = all_upper s && is_upper c.
Proof.
  induction s as [| a s IH].
  - rewrite append_nil_l. simpl. apply andb_comm.
  - rewrite append_cons. simpl. rewrite IH. apply andb_assoc.
Qed.

Lemma chr_code r : 0 <= r < 26 -> Z.of_nat (nat_of_ascii (chr (65 + r))) = 65 + r.
Proof.
  intros H. unfold chr. rewrite nat_ascii_embedding by lia. lia.
Qed.

Lemma letters_value_column_to_letter n :
  0 <= n -> letters_value (column_to_letter n) = n.
Proof.
  revert n. refine (Zlt_0_ind _ _). intros n IH Hn.
  destruct (Z.eq_dec n 0) as [-> | Hne]; [reflexivity |].
  rewrite column_to_letter_step by lia.
  unfold letters_value in *. rewrite letters_value_from_snoc.
  pose proof (div26_bounds n ltac:(lia)) as Hb.
  pose proof (Z.mod_pos_bound (n - 1) 26 ltac:(lia)) as Hr.
  rewrite IH by lia.
  unfold letter_digit. rewrite chr_code by lia.
  pose proof (Z.div_mod (n - 1) 26 ltac:(lia)). lia.
Qed.

Lemma all_upper_column_to_letter n :
  0 <= n -> all_upper (column_to_letter n) = true.
Proof.
  revert n. refine (Zlt_0_ind _ _). intros n IH Hn.
  destruct (Z.eq_dec n 0) as [-> | Hne]; [reflexivity |].
  rewrite column_to_letter_step by lia.
  pose proof (div26_bounds n ltac:(lia)) as Hb.
  pose proof (Z.mod_pos_bound (n - 1) 26 ltac:(lia)) as Hr.
  rewrite all_upper_snoc, IH by lia. simpl.
  unfold is_upper. rewrite chr_code by lia.
  apply andb_true_intro. split; apply Z.leb_le; lia.
Qed.

Lemma snoc_not_empty s c : s +:+ String c "" <> "".
Proof. destruct s; discriminate. Qed.

(** C10. For positive [n] and [m]: [column_to_letter n] is the bijective
    base-26 label of [n] (read back with A = 1 ... Z = 26 it gives [n], and
    it is the label of [(n-1) div 26] followed by the letter of
    [(n-1) mod 26]); equal labels come from equal numbers; the label is not
    empty and made of the letters A to Z only. 1, 26, 27, 52, 53, 702 and
    703 give A, Z, AA, AZ, BA, ZZ and AAA. The function is total: the loop
    is defined by well-founded recursion on [col]. *)
Theorem column_to_letter_bijective_base26 (n m : Z) :
  0 < n -> 0 < m ->
  letters_value (column_to_letter n) = n
  /\ (column_to_letter n = column_to_letter m -> n = m)
  /\ column_to_letter n <> ""
  /\ all_upper (column_to_letter n) = true
  /\ column_to_letter n
     = column_to_letter ((n - 1) / 26) +:+ String (chr (65 + (n - 1) mod 26)) ""
  /\ map column_to_letter [1; 26; 27; 52; 53; 702; 703]
     = ["A"; "Z"; "AA"; "AZ"; "BA"; "ZZ"; "AAA"].
Proof.
  intros Hn Hm. repeat split.
  - apply letters_value_column_to_letter; lia.
  - intros Heq.
    rewrite <- (letters_value_column_to_letter n), <- (letters_value_column_to_letter m) by lia.
    now rewrite Heq.
  - rewrite column_to_letter_step by lia. apply snoc_not_empty.
  - apply all_upper_column_to_letter; lia.
  - apply column_to_letter_step; lia.
Qed.

Lemma column_to_letter_bijective_base26_witness :
  letters_value (column_to_letter 28) = 28
  /\ (column_to_letter 28 = column_to_letter 2 -> 28 = 2)
  /\ column_to_letter 28 = "AB".
Proof.
  destruct (column_to_letter_bijective_base26 28 2 ltac:(lia) ltac:(lia))
    as (Hv & Hinj & _).
  split; [exact Hv | split; [exact Hinj | reflexivity]].
Defined.

End ColumnLetters.

(** ** The resolver: parse_item *)

Module ResolverFacts.
Import Main Observe.

Section Resolver.
Context {World : Type}.
Variable navigate : string -> bool -> World -> result string * World.
Variable P : ParserOps.

Ltac case_getters :=
  repeat match goal with
         | |- context [match ?r with Ok _ => _ | Raise _ => _ end] =>
             destruct r
         end.

Lemma try_body_link (p : parser P) (item : Item) :
  link (fst (try_body P p item)) = link item.
Proof.
  unfold try_body, and_then, assign. case_getters; reflexivity.
Qed.

Lemma fetch_trace (l : string) (b : bool) (st : state) :
  trace (snd (fetch navigate l b st)) = trace st ++ [EvFetch l b].
Proof.
  unfold fetch. destruct (Request.get_page navigate l b (world st)).
  reflexivity.
Qed.

Lemma fetch_none (l : string) (b : bool) (st : state) (w' : World) :
  Request.get_page navigate l b (world st) = (None, w') ->
  fetch navigate l b st = (None, mkState w' (trace st ++ [EvFetch l b])).
Proof. intros H. unfold fetch. now rewrite H. Qed.

(** [get_page] never hands an empty page on: [not page] in [parse_item]
    holds for [None] only. *)
Lemma get_page_not_empty (l : string) (b : bool) (w : World) :
  fst (Request.get_page navigate l b w) <> Some "".
Proof.
  unfold Request.get_page. destruct (navigate l b w) as [[html | e] w'].
  - destruct (Request._is_bad_page html) eqn:Hbad; simpl; [discriminate |].
    destruct html; [discriminate Hbad | discriminate].
  - simpl. discriminate.
Qed.

Lemma attempt_body_link (l : string) (k : nat) (item : Item) (st : state) :
  match fst (attempt_body navigate P l k item st) with
  | Returned item' | Continue item' => link item' = link item
  end.
Proof.
  unfold attempt_body.
  destruct (fetch navigate l (1 <? k) st) as [[[| c pg] |] st1]; simpl;
    try reflexivity.
  pose proof (try_body_link (new_parser P (String c pg)) item) as H.
  destruct (try_body P (new_parser P (String c pg)) item) as [item' [[] | e]];
    exact H.
Qed.

Lemma attempts_loop_link (l : string) (todo : list nat) :
  forall (item : Item) (st : state),
    link (fst (attempts_loop navigate P l todo item st)) = link item.
Proof.
  induction todo as [| k rest IH]; intros item st; simpl; [reflexivity |].
  pose proof (attempt_body_link l k item st) as H.
  destruct (attempt_body navigate P l k item st) as [[item' | item'] st'];
    simpl in *; [exact H |].
  rewrite IH. exact H.
Qed.

(** What one pass adds to the trace: one fetch, then at most one parse. *)
Lemma attempt_body_trace (l : string) (k : nat) (item : Item) (st : state) :
  exists evs,
    trace (snd (attempt_body navigate P l k item st)) = trace st ++ evs
    /\ count_fetch evs = 1 /\ count_parse evs <= 1
    /\ count_batch_update evs = 0.
Proof.
  unfold attempt_body. pose proof (fetch_trace l (1 <? k) st) as Hf.
  destruct (fetch navigate l (1 <? k) st) as [[[| c pg] |] st1]; simpl in *.
  - exists [EvFetch l (1 <? k)]. repeat split; auto.
  - exists [EvFetch l (1 <? k); EvParse (String c pg)].
    destruct (try_body P (new_parser P (String c pg)) item) as [item' [[] | e]];
      simpl; rewrite Hf, <- app_assoc; repeat split; auto.
  - exists [EvFetch l (1 <? k)]. repeat split; auto.
Qed.

Lemma count_fetch_app (a b : list event) :
  count_fetch (a ++ b) = count_fetch a + count_fetch b.
Proof. unfold count_fetch. now rewrite List.filter_app, length_app. Qed.

Lemma count_parse_app (a b : list event) :
  count_parse (a ++ b) = count_parse a + count_parse b.
Proof. unfold count_parse. now rewrite List.filter_app, length_app. Qed.

Lemma count_batch_update_app (a b : list event) :
  count_batch_update (a ++ b) = count_batch_update a + count_batch_update b.
Proof. unfold count_batch_update. now rewrite List.filter_app, length_app. Qed.

Lemma attempts_loop_trace (l : string) (todo : list nat) :
  forall (item : Item) (st : state),
  exists evs,
    trace (snd (attempts_loop navigate P l todo item st)) = trace st ++ evs
    /\ count_fetch evs <= length todo
    /\ (todo <> [] -> 1 <= count_fetch evs)
    /\ count_parse evs <= count_fetch evs
    /\ count_batch_update evs = 0.
Proof.
  induction todo as [| k rest IH]; intros item st; simpl.
  - exists []. rewrite app_nil_r. repeat split; auto. congruence.
  - destruct (attempt_body_trace l k item st) as (e1 & Ht1 & Hf1 & Hp1 & Hb1).
    destruct (attempt_body navigate P l k item st) as [[item' | item'] st'];
      simpl in *.
    + exists e1. repeat split; auto; lia.
    + destruct (IH item' st') as (e2 & Ht2 & Hf2 & _ & Hp2 & Hb2).
      exists (e1 ++ e2).
      rewrite Ht2, Ht1, <- app_assoc, count_fetch_app, count_parse_app,
        count_batch_update_app.
      repeat split; auto; lia.
Qed.

Ltac by_field j tac :=
  do 8 (destruct j as [| j]; [first [tac | lia] |]).

Ltac raised_at n :=
  intros [= <- <-]; exists n;
  split; [lia |];
  split; [simpl; assumption |];
  split; [| split; [| reflexivity]];
  [ let j := fresh "j" in let Hj := fresh "Hj" in
    intros j Hj; by_field j ltac:(simpl; assumption); lia
  | let j := fresh "j" in let Hj := fresh "Hj" in
    intros j Hj; by_field j ltac:(simpl; reflexivity); exact I ].

(** The [try] block ends in an exception exactly at the first getter that
    raises; the assignments before it have been made, the later ones have
    not. *)
Lemma try_body_raise_inv (p : parser P) (item item' : Item) (e : exn) :
  try_body P p item = (item', Raise e) ->
  exists n,
    n < 8
    /\ getter_raises P p n e
    /\ (forall j, j < n -> getter_gave P p j item')
    /\ (forall j, n <= j -> field_kept j item item')
    /\ link item' = link item.
Proof.
  unfold try_body, and_then, assign.
  destruct (op_price P p) eqn:H0; [| raised_at 0].
  destruct (op_shipping P p) eqn:H1; [| raised_at 1].
  destruct (op_delivery_time P p) eqn:H2; [| raised_at 2].
  destruct (op_title P p) eqn:H3; [| raised_at 3].
  destruct (op_param P "Condition" p) eqn:H4; [| raised_at 4].
  destruct (op_param P "MPN" p) eqn:H5; [| raised_at 5].
  destruct (op_param P "Brand" p) eqn:H6; [| raised_at 6].
  destruct (op_param P "Model" p) eqn:H7; [| raised_at 7].
  discriminate.
Qed.

(** The [try] block completes exactly when the eight getters return; the
    eight fields then hold their values. *)
Lemma try_body_ok_inv (p : parser P) (item item' : Item) (u : unit) :
  try_body P p item = (item', Ok u) ->
  (forall j, j < 8 -> getter_gave P p j item') /\ link item' = link item.
Proof.
  unfold try_body, and_then, assign.
  destruct (op_price P p) eqn:H0; [| discriminate].
  destruct (op_shipping P p) eqn:H1; [| discriminate].
  destruct (op_delivery_time P p) eqn:H2; [| discriminate].
  destruct (op_title P p) eqn:H3; [| discriminate].
  destruct (op_param P "Condition" p) eqn:H4; [| discriminate].
  destruct (op_param P "MPN" p) eqn:H5; [| discriminate].
  destruct (op_param P "Brand" p) eqn:H6; [| discriminate].
  destruct (op_param P "Model" p) eqn:H7; [| discriminate].
  intros [= <-]. split; [| reflexivity].
  intros j Hj. by_field j ltac:(simpl; assumption). lia.
Qed.

Lemma item_eta (a b : Item) :
  link a = link b -> (forall j, field_kept j b a) -> a = b.
Proof.
  intros Hl Hf. destruct a, b; simpl in *.
  pose proof (Hf 0) as F0. pose proof (Hf 1) as F1. pose proof (Hf 2) as F2.
  pose proof (Hf 3) as F3. pose proof (Hf 4) as F4. pose proof (Hf 5) as F5.
  pose proof (Hf 6) as F6. pose proof (Hf 7) as F7. simpl in *. congruence.
Qed.

Lemma attempt_body_none (l : string) (k : nat) (item : Item) (st : state)
    (w' : World) :
  Request.get_page navigate l (1 <? k) (world st) = (None, w') ->
  attempt_body navigate P l k item st
  = (Continue item, mkState w' (trace st ++ [EvFetch l (1 <? k)])).
Proof.
  intros H. unfold attempt_body. now rewrite (fetch_none _ _ _ _ H).
Qed.

Ltac no_raise H n :=
  exfalso; eapply (H n); [lia | simpl; eassumption].

(** The [try] block completes when none of the eight getters raises. *)
Lemma try_body_ok_intro (p : parser P) (item : Item) :
  (forall j e, j < 8 -> ~ getter_raises P p j e) ->
  exists item', try_body P p item = (item', Ok tt).
Proof.
  intros H. unfold try_body, and_then, assign.
  destruct (op_price P p) eqn:H0; [| no_raise H 0].
  destruct (op_shipping P p) eqn:H1; [| no_raise H 1].
  destruct (op_delivery_time P p) eqn:H2; [| no_raise H 2].
  destruct (op_title P p) eqn:H3; [| no_raise H 3].
  destruct (op_param P "Condition" p) eqn:H4; [| no_raise H 4].
  destruct (op_param P "MPN" p) eqn:H5; [| no_raise H 5].
  destruct (op_param P "Brand" p) eqn:H6; [| no_raise H 6].
  destruct (op_param P "Model" p) eqn:H7; [| no_raise H 7].
  eauto.
Qed.

End Resolver.

(** With the parser of [parser/parser.py] the [try] block ends as
    [get_title] does. When [get_title] raises, the price, the shipping and
    the delivery time of the page have been assigned. *)
Lemma bs4_try_body_title (BeautifulSoup : string -> Bs4.node)
    (charref_sub : string -> result string) (p : Bs4.node) (item : Item) :
  try_body (bs4_parser BeautifulSoup charref_sub) p item
  = match Parser.get_title_raising charref_sub p with
    | Ok t =>
        (mkItem (link item) (Parser.get_price p) (Parser.get_shipping p)
           (Parser.get_delivery_time p) t (Parser.get_param "Condition" p)
           (Parser.get_param "MPN" p) (Parser.get_param "Brand" p)
           (Parser.get_param "Model" p), Ok tt)
    | Raise e =>
        (mkItem (link item) (Parser.get_price p) (Parser.get_shipping p)
           (Parser.get_delivery_time p) (title item) (condition item)
           (mpn item) (brand item) (model item), Raise e)
    end.
Proof.
  unfold try_body, and_then, assign. cbn [bs4_parser op_price op_shipping
    op_delivery_time op_title op_param].
  destruct (Parser.get_title_raising charref_sub p); reflexivity.
Qed.

End ResolverFacts.

(** ** The run: main *)

Module RunFacts.
Import Main Observe ResolverFacts.

Lemma last_resolution_acc (l : string) (rs : list (string * Item)) :
  forall acc,
    fold_left (fun a r => if String.eqb (fst r) l then Some (snd r) else a)
      rs acc
    = match last_resolution l rs with
      | Some it => Some it
      | None => acc
      end.
Proof.
  unfold last_resolution. induction rs as [| r rs IH]; intros acc; simpl.
  - reflexivity.
  - rewrite (IH (if String.eqb (fst r) l then _ else acc)).
    rewrite (IH (if String.eqb (fst r) l then _ else None)).
    destruct (fold_left _ rs None); [reflexivity |].
    destruct (String.eqb (fst r) l); reflexivity.
Qed.

Lemma index_found (x : string) (l : list string) :
  has_column l x = true -> exists i, PyStr.index x l = Ok i.
Proof.
  unfold has_column. induction l as [| y l IH]; simpl; [discriminate |].
  rewrite (String.eqb_sym x y). destruct (String.eqb y x); simpl.
  - eauto.
  - intros H. destruct (IH H) as [i ->]. simpl. eauto.
Qed.

Lemma index_missing (x : string) (l : list string) :
  has_column l x = false -> PyStr.index x l = Raise ValueError.
Proof.
  unfold has_column. induction l as [| y l IH]; simpl; [reflexivity |].
  rewrite (String.eqb_sym x y). destruct (String.eqb y x); simpl.
  - discriminate.
  - intros H. now rewrite (IH H).
Qed.

Lemma col_found (headers : list string) (name : string) :
  has_column headers name = true -> exists i, col headers name = Ok i.
Proof.
  intros H. unfold col. destruct (index_found _ _ H) as [i ->]. eauto.
Qed.

Lemma col_missing (headers : list string) (name : string) :
  has_column headers name = false ->
  col headers name
  = Raise (RuntimeError ("Column '" +:+ name +:+ "' not found in the sheet")).
Proof. intros H. unfold col. now rewrite (index_missing _ _ H). Qed.

(** The lookups of [update_sheet] stop at the first required column the
    header row lacks. *)
Lemma resolve_columns_missing (headers : list string) (name : string) :
  first_missing headers = Some name ->
  resolve_columns headers
  = Raise (RuntimeError ("Column '" +:+ name +:+ "' not found in the sheet")).
Proof.
  unfold first_missing, required_columns, resolve_columns. simpl List.find.
  intros H.
  repeat match type of H with
         | context [has_column headers ?n] =>
             let E := fresh "E" in
             destruct (has_column headers n) eqn:E; simpl in H;
             [ let i := fresh "i" in let Hi := fresh "Hi" in
               destruct (col_found _ _ E) as [i Hi]; rewrite Hi; cbn [bind]
             | injection H as <-; rewrite (col_missing _ _ E); reflexivity ]
         end.
  discriminate H.
Qed.

Lemma first_missing_exists (headers : list string) (name : string) :
  In name required_columns -> has_column headers name = false ->
  exists name', first_missing headers = Some name'
                /\ In name' required_columns
                /\ has_column headers name' = false.
Proof.
  intros Hin Hno. unfold first_missing.
  destruct (List.find _ required_columns) as [name' |] eqn:Hf.
  - apply List.find_some in Hf as [Hin' Hneg]. exists name'.
    split; [reflexivity | split; [exact Hin' |]].
    now apply negb_true_iff.
  - apply (List.find_none _ _ Hf) in Hin. rewrite Hno in Hin. discriminate.
Qed.

Section Run.
Context {World : Type}.
Variable navigate : string -> bool -> World -> result string * World.
Variable P : ParserOps.

Lemma parse_item_trace (l : string) (st : state) :
  exists evs,
    trace (snd (parse_item navigate P l st)) = trace st ++ evs
    /\ 1 <= count_fetch evs <= 3
    /\ count_batch_update evs = 0.
Proof.
  destruct (attempts_loop_trace navigate P l [1; 2; 3] (new_Item l) st)
    as (evs & Ht & Hle & Hge & _ & Hb).
  exists evs. split; [exact Ht |]. simpl in Hle.
  split; [split; [apply Hge; discriminate | exact Hle] | exact Hb].
Qed.

(** The loop of [main] fetches at least once and at most three times for
    each link, and writes nothing. *)
Lemma resolve_all_trace (links : list string) :
  forall (items : gmap string Item) (st : state),
  exists evs,
    trace (snd (resolve_all navigate P links items st)) = trace st ++ evs
    /\ length links <= count_fetch evs <= 3 * length links
    /\ count_batch_update evs = 0.
Proof.
  induction links as [| l rest IH]; intros items st; simpl.
  - exists []. rewrite app_nil_r. repeat split; auto.
  - destruct (parse_item_trace l st) as (e1 & Ht1 & Hf1 & Hb1).
    destruct (parse_item navigate P l st) as [item st1]. simpl in Ht1.
    destruct (IH (<[l:=item]> items) st1) as (e2 & Ht2 & Hf2 & Hb2).
    exists (e1 ++ e2).
    rewrite Ht2, Ht1, <- app_assoc, count_fetch_app, count_batch_update_app.
    repeat split; lia.
Qed.

Lemma resolve_all_lookup (links : list string) :
  forall (items : gmap string Item) (st : state) (l : string),
    fst (resolve_all navigate P links items st) !! l
    = match last_resolution l (resolutions navigate P links st) with
      | Some it => Some it
      | None => items !! l
      end.
Proof.
  induction links as [| l0 rest IH]; intros items st l; simpl; [reflexivity |].
  destruct (parse_item navigate P l0 st) as [item st1].
  rewrite IH. unfold last_resolution at 2. simpl.
  rewrite last_resolution_acc.
  destruct (last_resolution l (resolutions navigate P rest st1));
    [reflexivity |].
  destruct (String.eqb_spec l0 l) as [-> | Hne].
  - apply lookup_insert_eq.
  - now apply lookup_insert_ne.
Qed.

Lemma resolve_all_dom (links : list string) :
  forall (items : gmap string Item) (st : state),
    dom (fst (resolve_all navigate P links items st))
    = list_to_set links ∪ dom items.
Proof.
  induction links as [| l0 rest IH]; intros items st; simpl.
  - set_solver.
  - destruct (parse_item navigate P l0 st) as [item st1].
    rewrite IH, dom_insert_L. set_solver.
Qed.

(** C6. The dict [main] builds has exactly the distinct input links as
    keys, so one entry for each, and the entry of a link is the record of
    the last call of [parse_item] on that link in input order. *)
Theorem aggregate_last_resolution (links : list string) (st : state) :
  dom (fst (resolve_all navigate P links ∅ st)) = list_to_set links
  /\ size (fst (resolve_all navigate P links ∅ st))
     = length (remove_dups links)
  /\ forall l,
       fst (resolve_all navigate P links ∅ st) !! l
       = last_resolution l (resolutions navigate P links st).
Proof.
  assert (Hdom : dom (fst (resolve_all navigate P links ∅ st))
                 = list_to_set links).
  { rewrite resolve_all_dom, dom_empty_L. set_solver. }
  split; [exact Hdom | split].
  - rewrite <- size_dom, Hdom.
    rewrite <- (size_list_to_set (C := gset string) (remove_dups links))
      by apply NoDup_remove_dups.
    f_equal. apply set_eq. intros x.
    rewrite !elem_of_list_to_set. symmetry. apply elem_of_remove_dups.
  - intros l. rewrite resolve_all_lookup, lookup_empty.
    now destruct (last_resolution l _).
Qed.

Lemma get_links_no_link (headers : list string) (rows : list (list string)) :
  has_column headers "link" = false ->
  get_links (headers :: rows)
  = Raise (RuntimeError "Column 'link' not found in the first row of the sheet").
Proof. intros H. simpl. now rewrite (index_missing _ _ H). Qed.

(** C1, as the code has it. A header row without ["link"] makes the run
    raise the [RuntimeError] of [get_links] with the state untouched, so
    before any fetch. A header row that lacks another required column makes
    the run raise the [RuntimeError] naming the first missing column, and it
    does so in [update_sheet]: every link has been resolved by then, with at
    least one fetch for each, and no update is sent. *)
Theorem schema_mismatch_at_write_back (headers : list string)
    (rows : list (list string)) (st : state) :
  (has_column headers "link" = false ->
   main navigate P (headers :: rows) st
   = (Raise (RuntimeError
               "Column 'link' not found in the first row of the sheet"), st))
  /\ (forall name links,
        In name required_columns ->
        has_column headers name = false ->
        get_links (headers :: rows) = Ok links ->
        exists name' evs,
          first_missing headers = Some name'
          /\ main navigate P (headers :: rows) st
             = (Raise (RuntimeError
                         ("Column '" +:+ name' +:+ "' not found in the sheet")),
                snd (resolve_all navigate P links ∅ st))
          /\ trace (snd (resolve_all navigate P links ∅ st)) = trace st ++ evs
          /\ length links <= count_fetch evs <= 3 * length links
          /\ count_batch_update evs = 0).
Proof.
  split.
  - intros H. unfold main. now rewrite (get_links_no_link _ rows H).
  - intros name links Hin Hno Hlinks.
    destruct (first_missing_exists _ _ Hin Hno) as (name' & Hfm & _ & _).
    destruct (resolve_all_trace links ∅ st) as (evs & Ht & Hf & Hb).
    exists name', evs. split; [exact Hfm |].
    split; [| split; [exact Ht | split; [exact Hf | exact Hb]]].
    unfold main. rewrite Hlinks.
    destruct (resolve_all navigate P links ∅ st) as [items st'].
    unfold update_sheet, sheet_updates.
    now rewrite (resolve_columns_missing _ _ Hfm).
Qed.

End Run.

Lemma schema_mismatch_at_write_back_witness :
  exists name' evs,
    first_missing headers_without_mpn = Some name'
    /\ main counting_navigate echo_parser sheet_without_mpn (mkState 0 [])
       = (Raise (RuntimeError
                   ("Column '" +:+ name' +:+ "' not found in the sheet")),
          snd (resolve_all counting_navigate echo_parser
                 ["https://www.ebay.com/itm/1"] ∅ (mkState 0 [])))
    /\ trace (snd (resolve_all counting_navigate echo_parser
                     ["https://www.ebay.com/itm/1"] ∅ (mkState 0 [])))
       = trace (mkState 0 []) ++ evs
    /\ length ["https://www.ebay.com/itm/1"] <= count_fetch evs
       <= 3 * length ["https://www.ebay.com/itm/1"]
    /\ count_batch_update evs = 0.
Proof.
  apply (proj2 (schema_mismatch_at_write_back counting_navigate echo_parser
                  headers_without_mpn
                  [["https://www.ebay.com/itm/1"; ""; ""; ""; ""; ""; ""; ""]]
                  (mkState 0 [])) "mpn").
  - simpl. tauto.
  - reflexivity.
  - reflexivity.
Defined.

(** Against C1 as worded: on a sheet whose header row lacks
    ["mpn"] and which holds one link, the run fetches and parses the page
    of the link first and raises only afterwards. *)
Lemma missing_mpn_raised_after_fetch :
  main counting_navigate echo_parser sheet_without_mpn (mkState 0 [])
  = (Raise (RuntimeError "Column 'mpn' not found in the sheet"),
     mkState 1 [EvFetch "https://www.ebay.com/itm/1" false; EvParse "page 0"])
  /\ count_fetch
       (trace (snd (main counting_navigate echo_parser sheet_without_mpn
                      (mkState 0 [])))) = 1.
Proof. split; vm_compute; reflexivity. Qed.

(** With a duplicated link the last resolution is the one kept. *)
Example aggregate_duplicate :
  fst (resolve_all counting_navigate echo_parser ["a"; "b"; "a"] ∅
         (mkState 0 [])) !! "a"
  = Some (set_price (new_Item "a") (Some "page 2"))
  /\ fst (resolve_all counting_navigate echo_parser ["a"; "b"; "a"] ∅
            (mkState 0 [])) !! "b"
     = Some (set_price (new_Item "b") (Some "page 1"))
  /\ size (fst (resolve_all counting_navigate echo_parser ["a"; "b"; "a"] ∅
                  (mkState 0 []))) = 2.
Proof. split; [| split]; vm_compute; reflexivity. Qed.

End RunFacts.

(** ** The field extractor: parser/parser.py *)

Module ParserFacts.
Import Bs4 Parser Fixtures.

Lemma get_element_filtered (tag : string) (class_names : list string)
    (sub : string) (subs : list string) (soup : node) :
  _get_element tag class_names (Some (sub :: subs)) soup
  = List.find (text_has_any (sub :: subs))
      (find_all tag (matches_fn (class_filter class_names)) soup).
Proof.
  unfold _get_element.
  destruct (find_all tag (matches_fn (class_filter class_names)) soup);
    reflexivity.
Qed.

(** Which spans count as bold: the class attribute must read exactly
    [ux-textspans ux-textspans--BOLD]; every span carrying the token
    [ux-textspans], bold or not, is a candidate of the fallback of
    [get_delivery_time]. *)
Example bold_span_is_bold :
  matches_str bold_class (Some ["ux-textspans"; "ux-textspans--BOLD"]) = true
  /\ matches_str bold_class (Some ["ux-textspans--BOLD"; "ux-textspans"])
     = false
  /\ matches_str bold_class
       (Some ["ux-textspans"; "ux-textspans--BOLD"; "ux-textspans--SECONDARY"])
     = false
  /\ matches_str "ux-textspans" (Some ["ux-textspans"; "ux-textspans--BOLD"])
     = true
  /\ matches_str "ux-textspans" None = false.
Proof. repeat split. Qed.

(** The class filter of [_get_element] tests substrings of the class
    attribute, not tokens. *)
Example class_filter_substring :
  matches_fn (class_filter ["x-price-primary"]) (Some ["x-price-primary"])
  = true
  /\ matches_fn (class_filter ["col-6"; "false"]) (Some ["col-60"; "falsey"])
     = true
  /\ matches_fn (class_filter ["col-6"]) None = false
  /\ matches_fn (class_filter ["col-6"]) (Some []) = false.
Proof. repeat split. Qed.

(** The scenario of the price block: currency prefix and per-unit suffix
    are removed. *)
Example get_price_per_unit : get_price price_page = Some "49.99".
Proof. reflexivity. Qed.

Lemma contains_prefix (sub s : string) :
  String.prefix sub s = true -> PyStr.contains sub s = true.
Proof. intros H. destruct s; cbn [PyStr.contains]; now rewrite H. Qed.

(** C5. When the shipping block and its first bold span exist,
    [get_shipping] is the classification of that span's text, and the
    classification takes the first test that succeeds: [0] when the text
    contains "Free", whatever else it contains; otherwise the fixed string
    when it contains "May not ship to"; otherwise, when it contains "US $",
    the text with every "US $" removed and then stripped, which for a text
    made of the prefix and a remainder is the stripped remainder; otherwise
    the text itself. *)
Theorem shipping_classification_order (soup block first : node)
    (rest : list node) :
  _get_element "div" shipping_classes None soup = Some block ->
  find_all "span" (matches_str bold_class) block = first :: rest ->
  get_shipping soup = Some (classify_shipping (get_text first))
  /\ forall text : string,
       (PyStr.contains "Free" text = true -> classify_shipping text = CInt 0)
       /\ (PyStr.contains "Free" text = false ->
           PyStr.contains "May not ship to" text = true ->
           classify_shipping text = CStr "Cannot be delivered to your country")
       /\ (PyStr.contains "Free" text = false ->
           PyStr.contains "May not ship to" text = false ->
           PyStr.contains "US $" text = true ->
           classify_shipping text
           = CStr (PyStr.strip (PyStr.replace "US $" "" text)))
       /\ (forall r,
             text = "US $" +:+ r ->
             PyStr.contains "Free" text = false ->
             PyStr.contains "May not ship to" text = false ->
             PyStr.contains "US $" r = false ->
             classify_shipping text = CStr (PyStr.strip r))
       /\ (PyStr.contains "Free" text = false ->
           PyStr.contains "May not ship to" text = false ->
           PyStr.contains "US $" text = false ->
           classify_shipping text = CStr text).
Proof.
  intros Hblock Hbold. split.
  - unfold get_shipping. fold shipping_classes. now rewrite Hblock, Hbold.
  - intros text. unfold classify_shipping. repeat split.
    + now intros ->.
    + now intros -> ->.
    + now intros -> -> ->.
    + intros r -> -> -> Hr.
      rewrite (contains_prefix "US $" ("US $" +:+ r)) by apply prefix_append.
      rewrite (replace_prefix "U" "S $" "" r), append_nil_l.
      now rewrite (replace_absent _ _ _ Hr).
    + now intros -> -> ->.
Qed.

Lemma shipping_classification_order_witness :
  get_shipping (page [shipping_block "US $15.00"]) = Some (CStr "15.00")
  /\ get_shipping (page [shipping_block "Free US $5.00 upgrade"])
     = Some (CInt 0)
  /\ get_shipping (page [shipping_block "May not ship to Ukraine - US $9"])
     = Some (CStr "Cannot be delivered to your country")
  /\ get_shipping (page [shipping_block "Calculated"])
     = Some (CStr "Calculated").
Proof.
  pose proof (fun text =>
    proj1 (shipping_classification_order
             (page [shipping_block text]) (shipping_block text)
             (bold_span text) [] eq_refl eq_refl)) as H.
  repeat split; rewrite H; reflexivity.
Defined.

(** C7, as the code has it. [get_delivery_time] looks only at the first
    values block whose text contains a weekday abbreviation: without such a
    block it gives [None]. When that block holds at least two bold spans
    the result is the text of the first, " to ", and the text of the
    second. With fewer than two it is the text of the first span of the
    block carrying the class [ux-textspans], be it bold or not, and [None]
    when there is none. *)
Theorem delivery_window_rule (soup : node) :
  (List.find (text_has_any weekdays) (delivery_candidates soup) = None ->
   get_delivery_time soup = None)
  /\ forall block,
       List.find (text_has_any weekdays) (delivery_candidates soup)
       = Some block ->
       In block (delivery_candidates soup)
       /\ (exists day,
             In day ["Mon"; "Tue"; "Wed"; "Thu"; "Fri"; "Sat"; "Sun"]
             /\ PyStr.contains day (get_text block) = true)
       /\ (forall b0 b1 more,
             find_all "span" (matches_str bold_class) block = b0 :: b1 :: more ->
             get_delivery_time soup
             = Some (get_text b0 +:+ " to " +:+ get_text b1))
       /\ (length (find_all "span" (matches_str bold_class) block) < 2 ->
           get_delivery_time soup
           = option_map get_text
               (find "span" (matches_str "ux-textspans") block)).
Proof.
  unfold delivery_candidates, get_delivery_time, weekdays.
  rewrite get_element_filtered. split.
  - now intros ->.
  - intros block Hfind. rewrite Hfind.
    apply List.find_some in Hfind as [Hin Htext].
    split; [exact Hin | split; [| split]].
    + unfold text_has_any in Htext.
      apply List.existsb_exists in Htext as (day & Hday & Hc). eauto.
    + now intros b0 b1 more ->.
    + intros Hlen.
      destruct (find_all "span" (matches_str bold_class) block)
        as [| b0 [| b1 more]]; simpl in Hlen; [| | lia];
        now destruct (find "span" (matches_str "ux-textspans") block).
Qed.

Lemma delivery_window_rule_witness :
  List.find (text_has_any weekdays) (delivery_candidates delivery_page)
  = Some delivery_block
  /\ get_delivery_time delivery_page = Some "Mon, Jun 2 to Fri, Jun 6"
  /\ get_delivery_time no_bold_page = Some "Estimated Fri, Jun 6"
  /\ get_delivery_time (page [plain_span "Free returns"]) = None.
Proof.
  split; [reflexivity | split; [| split]].
  - destruct (proj2 (delivery_window_rule delivery_page) delivery_block
                eq_refl) as (_ & _ & Hbold & _).
    apply (Hbold (bold_span "Mon, Jun 2") (bold_span "Fri, Jun 6") []).
    reflexivity.
  - destruct (proj2 (delivery_window_rule no_bold_page) no_bold_block eq_refl)
      as (_ & _ & _ & Hfallback).
    rewrite Hfallback; [reflexivity | simpl; lia].
  - apply (proj1 (delivery_window_rule (page [plain_span "Free returns"]))).
    reflexivity.
Defined.

(** Against C7 as worded: in a values block that holds one bold span in
    front of a span that is not bold, the first plain span reads "approx.",
    and [get_delivery_time] returns the text of the bold span, which
    carries the class [ux-textspans] too and comes first. *)
Lemma fallback_returns_bold_span :
  List.find (text_has_any weekdays) (delivery_candidates one_bold_page)
  = Some one_bold_block
  /\ find_all "span" (matches_str bold_class) one_bold_block
     = [bold_span "Tue, Jun 3"]
  /\ option_map get_text (head (plain_spans one_bold_block)) = Some "approx."
  /\ get_delivery_time one_bold_page = Some "Tue, Jun 3".
Proof. repeat split. Qed.

(** C8, as the code has it. Without a [title] element [get_title] gives
    [None]. Otherwise it takes the stripped text of the first one, decodes
    it with [html.unescape] (which leaves a text without ["&"] as it is) and
    removes every occurrence of " | eBay" from the decoded text, wherever it
    stands: a decoded text without occurrence is returned as it is, and a
    decoded text made of a base without occurrence followed by the suffix
    gives the base. *)
Theorem get_title_removes_every_suffix (charref_sub : string -> string)
    (soup : node) :
  (find "title" any_class soup = None -> get_title charref_sub soup = None)
  /\ forall title_tag,
       find "title" any_class soup = Some title_tag ->
       get_title charref_sub soup
       = Some (PyStr.replace " | eBay" ""
                 (unescape charref_sub (get_text title_tag)))
       /\ (PyStr.contains "&" (get_text title_tag) = false ->
           unescape charref_sub (get_text title_tag) = get_text title_tag)
       /\ (PyStr.contains " | eBay" (unescape charref_sub (get_text title_tag))
           = false ->
           get_title charref_sub soup
           = Some (unescape charref_sub (get_text title_tag)))
       /\ (forall base,
             unescape charref_sub (get_text title_tag) = base +:+ " | eBay" ->
             PyStr.contains " | eBay" base = false ->
             get_title charref_sub soup = Some base).
Proof.
  unfold get_title. split; [now intros -> |].
  intros title_tag ->. split; [reflexivity | split; [| split]].
  - unfold unescape. now intros ->.
  - intros H. now rewrite (replace_absent _ _ _ H).
  - intros base -> H. now rewrite (replace_site_suffix _ H).
Qed.

Lemma get_title_removes_every_suffix_witness :
  get_title (fun s => s) (titled_page "  Acme Widget 3000 | eBay ")
  = Some "Acme Widget 3000".
Proof.
  destruct (proj2 (get_title_removes_every_suffix (fun s => s)
                     (titled_page "  Acme Widget 3000 | eBay "))
              (Tag "title" None [Text "  Acme Widget 3000 | eBay "]) eq_refl)
    as (_ & _ & _ & Hbase).
  apply Hbase; reflexivity.
Defined.

(** Against C8 as worded: a title that holds " | eBay" in the
    middle and does not end with it has no character reference, so decoding
    leaves it as it is, and yet [get_title] returns it without the inner
    " | eBay". *)
Lemma title_inner_suffix_removed :
  (forall charref_sub,
      unescape charref_sub "Deals | eBay Stores" = "Deals | eBay Stores")
  /\ (forall charref_sub,
        get_title charref_sub (titled_page "Deals | eBay Stores")
        = Some "Deals Stores")
  /\ Some "Deals Stores" <> Some "Deals | eBay Stores".
Proof. split; [| split]; [reflexivity | reflexivity | discriminate]. Qed.

(** C9, as the code has it. [get_param name] looks only at the first
    definition-list block whose text contains [name]: without such a block
    it gives [None]. In that block it takes the [span] elements at any
    depth, in document order: with fewer than two it gives [None],
    otherwise the text of the second. *)
Theorem get_param_second_span_in_document_order (name : string)
    (soup : node) :
  (List.find (text_has_any [name]) (param_candidates soup) = None ->
   get_param name soup = None)
  /\ forall block,
       List.find (text_has_any [name]) (param_candidates soup) = Some block ->
       In block (param_candidates soup)
       /\ PyStr.contains name (get_text block) = true
       /\ find_all "span" any_class block
          = List.filter (is_tag "span" any_class) (descendants block)
       /\ (length (find_all "span" any_class block) < 2 ->
           get_param name soup = None)
       /\ (forall second,
             nth_error (find_all "span" any_class block) 1 = Some second ->
             get_param name soup = Some (get_text second)).
Proof.
  unfold param_candidates, get_param. fold param_classes.
  rewrite get_element_filtered. split; [now intros -> |].
  intros block Hfind. rewrite Hfind.
  apply List.find_some in Hfind as [Hin Htext].
  split; [exact Hin | split; [| split; [reflexivity | split]]].
  - unfold text_has_any in Htext. simpl in Htext.
    now rewrite orb_false_r in Htext.
  - intros Hlen.
    destruct (find_all "span" any_class block) as [| s0 [| s1 more]];
      simpl in Hlen; [reflexivity | reflexivity | lia].
  - intros second Hnth.
    destruct (find_all "span" any_class block) as [| s0 [| s1 more]];
      simpl in Hnth; [discriminate | discriminate |].
    now injection Hnth as ->.
Qed.

Lemma get_param_second_span_in_document_order_witness :
  List.find (text_has_any ["Brand"]) (param_candidates (page [brand_block]))
  = Some brand_block
  /\ get_param "Brand" (page [brand_block]) = Some "Acme".
Proof.
  split; [reflexivity |].
  destruct (proj2 (get_param_second_span_in_document_order "Brand"
                     (page [brand_block])) brand_block eq_refl)
    as (_ & _ & _ & _ & Hsecond).
  apply (Hsecond (plain_span "Acme")). reflexivity.
Defined.

(** Against C9 as worded. In a block laid out as eBay does,
    no [span] is a child of the block, and the value is returned all the
    same. In a block whose first child span wraps another span, the second
    child span holds "Acme" and the text returned is that of the wrapped
    span. *)
Lemma get_param_reads_nested_spans :
  child_spans brand_block = []
  /\ get_param "Brand" (page [brand_block]) = Some "Acme"
  /\ option_map get_text (nth_error (child_spans nested_block) 1)
     = Some "Acme"
  /\ get_param "Brand" (page [nested_block]) = Some "Brand".
Proof. repeat split. Qed.

End ParserFacts.

(** * Further properties *)

(** ** Stripping *)

Module TextFacts.

Lemma lstrip_idem (s : string) : PyStr.lstrip (PyStr.lstrip s) = PyStr.lstrip s.
Proof.
  induction s as [| c s IH]; [reflexivity |]. simpl.
  destruct (PyStr.is_space c) eqn:Hc; [exact IH |].
  simpl. now rewrite Hc.
Qed.

Lemma rstrip_idem (s : string) : PyStr.rstrip (PyStr.rstrip s) = PyStr.rstrip s.
Proof.
  induction s as [| c s IH]; [reflexivity |]. simpl.
  destruct (PyStr.rstrip s) as [| d r] eqn:Hr.
  - destruct (PyStr.is_space c) eqn:Hc; [reflexivity |].
    simpl. now rewrite Hc.
  - cbn [PyStr.rstrip]. cbn [PyStr.rstrip] in IH. now rewrite IH.
Qed.

Lemma starts_clean_lstrip (s : string) :
  Shape.starts_clean (PyStr.lstrip s).
Proof.
  induction s as [| c s IH]; [exact I |]. simpl.
  destruct (PyStr.is_space c) eqn:Hc; [exact IH | exact Hc].
Qed.

Lemma rstrip_head (c : ascii) (s : string) :
  PyStr.is_space c = false ->
  exists r, PyStr.rstrip (String c s) = String c r.
Proof.
  intros Hc. simpl. destruct (PyStr.rstrip s); rewrite ?Hc; eauto.
Qed.

Lemma starts_clean_rstrip (s : string) :
  Shape.starts_clean s -> Shape.starts_clean (PyStr.rstrip s).
Proof.
  destruct s as [| c s]; [intros _; exact I |]. intros Hc.
  destruct (rstrip_head c s Hc) as [r ->]. exact Hc.
Qed.

Lemma lstrip_clean (s : string) :
  Shape.starts_clean s -> PyStr.lstrip s = s.
Proof. destruct s as [| c s]; [reflexivity |]. simpl. now intros ->. Qed.

Lemma ends_clean_rstrip (s : string) : Shape.ends_clean (PyStr.rstrip s).
Proof.
  unfold Shape.ends_clean.
  induction s as [| c s IH]; [exact I |]. simpl.
  destruct (PyStr.rstrip s) as [| d r] eqn:Hr.
  - destruct (PyStr.is_space c) eqn:Hc; [exact I | exact Hc].
  - exact IH.
Qed.

End TextFacts.

(** ** Reading the sheet: get_links and the column lookups *)

Module SheetFacts.
Import Main Observe Shape TextFacts.

(** [l.index(x)] gives the leftmost position of [x]. *)
Lemma index_leftmost (x : string) (l : list string) :
  forall i,
    PyStr.index x l = Ok i ->
    nth_error l i = Some x /\ forall j, j < i -> nth_error l j <> Some x.
Proof.
  induction l as [| y l IH]; intros i; simpl; [discriminate |].
  destruct (String.eqb_spec y x) as [-> | Hne].
  - intros [= <-]. split; [reflexivity | intros j Hj; lia].
  - destruct (PyStr.index x l) as [n | e]; simpl; [| discriminate].
    intros [= <-]. destruct (IH n eq_refl) as [Hn Hfirst]. split; [exact Hn |].
    intros [| j] Hj; simpl; [congruence | apply Hfirst; lia].
Qed.

Lemma index_raises (x : string) (l : list string) (e : exn) :
  PyStr.index x l = Raise e -> e = ValueError /\ ~ In x l.
Proof.
  induction l as [| y l IH]; simpl.
  - intros [= <-]. split; [reflexivity | tauto].
  - destruct (String.eqb_spec y x) as [-> | Hne]; [discriminate |].
    destruct (PyStr.index x l) as [n | e']; simpl; [discriminate |].
    intros [= <-]. destruct (IH eq_refl) as [He Hin].
    split; [exact He | intros [H | H]; [congruence | tauto]].
Qed.

Lemma col_ok_inv (headers : list string) (name : string) (c : nat) :
  col headers name = Ok c ->
  1 <= c <= length headers
  /\ nth_error headers (c - 1) = Some name
  /\ forall j, j < c - 1 -> nth_error headers j <> Some name.
Proof.
  unfold col. destruct (PyStr.index name headers) as [i | e] eqn:Hi;
    [| discriminate].
  intros [= <-]. destruct (index_leftmost _ _ _ Hi) as [Hn Hfirst].
  replace (i + 1 - 1) with i by lia.
  split; [| split; [exact Hn | exact Hfirst]].
  assert (i < length headers) by (apply nth_error_Some; congruence). lia.
Qed.

(** X1. The inner [col] of [update_sheet] resolves a name to the 1-based
    position of its leftmost occurrence in the header row, and raises the
    [RuntimeError] naming the column exactly when the header row does not
    hold the name. *)
Theorem col_leftmost_header (headers : list string) (name : string) :
  (forall c,
      col headers name = Ok c ->
      1 <= c <= length headers
      /\ nth_error headers (c - 1) = Some name
      /\ forall j, j < c - 1 -> nth_error headers j <> Some name)
  /\ (forall e,
        col headers name = Raise e ->
        e = RuntimeError ("Column '" +:+ name +:+ "' not found in the sheet")
        /\ ~ In name headers)
  /\ (In name headers -> exists c, col headers name = Ok c).
Proof.
  split; [| split]; [intros c; apply col_ok_inv | unfold col | unfold col].
  - intros e. destruct (PyStr.index name headers) as [i | e'] eqn:Hi;
      [discriminate |].
    intros [= <-]. split; [reflexivity |].
    now destruct (index_raises _ _ _ Hi).
  - intros Hin. destruct (PyStr.index name headers) as [i | e'] eqn:Hi;
      [eauto |].
    destruct (index_raises _ _ _ Hi) as [_ Hno]. contradiction.
Qed.

Lemma col_leftmost_header_witness :
  col ["link"; "price"; "title"; "price"] "price" = Ok 2
  /\ nth_error ["link"; "price"; "title"; "price"] (2 - 1) = Some "price".
Proof.
  split; [reflexivity |].
  apply (proj1 (col_leftmost_header ["link"; "price"; "title"; "price"]
                  "price") 2 eq_refl).
Defined.

Lemma resolve_columns_ok_inv (headers : list string) (cs : columns) :
  resolve_columns headers = Ok cs ->
  map (col headers) required_columns = map Ok (column_list cs).
Proof.
  unfold resolve_columns, required_columns, column_list. cbn [map].
  repeat match goal with
         | |- context [bind (col headers ?n) _] =>
             destruct (col headers n); cbn [bind]; [| discriminate]
         end.
  now intros [= <-].
Qed.

Lemma resolved_columns_facts (headers : list string) (cs : columns) :
  resolve_columns headers = Ok cs ->
  NoDup (column_list cs)
  /\ Forall (fun c => 1 <= c <= length headers) (column_list cs)
  /\ ~ In (col_link cs) (output_columns cs)
  /\ map (fun c => nth_error headers (c - 1)) (column_list cs)
     = map Some required_columns.
Proof.
  intros H. apply resolve_columns_ok_inv in H.
  assert (Hall : Forall2 (fun name c => col headers name = Ok c)
                   required_columns (column_list cs)).
  { unfold required_columns, column_list in *. simpl in H.
    injection H as H1 H2 H3 H4 H5 H6 H7 H8 H9.
    repeat constructor; assumption. }
  assert (Hnames : map (fun c => nth_error headers (c - 1)) (column_list cs)
                   = map Some required_columns).
  { clear H. induction Hall as [| name c ns cl Hc _ IH]; [reflexivity |].
    simpl. rewrite IH. f_equal.
    now destruct (col_ok_inv headers name c Hc) as (_ & -> & _). }
  assert (Hnd : NoDup (column_list cs)).
  { apply (NoDup_fmap_1 (fun c => nth_error headers (c - 1))).
    unfold fmap, list_fmap. fold (map (fun c => nth_error headers (c - 1))
                                    (column_list cs)).
    rewrite Hnames. apply NoDup_ListNoDup. repeat constructor; simpl;
      intuition discriminate. }
  split; [exact Hnd | split; [| split; [| exact Hnames]]].
  - clear Hnames Hnd H.
    induction Hall as [| name c ns cl Hc _ IH]; constructor; [| exact IH].
    now destruct (col_ok_inv headers name c Hc).
  - unfold column_list, output_columns in *. simpl.
    apply NoDup_cons_1_1 in Hnd. intros Hin. apply Hnd.
    now apply list_elem_of_In.
Qed.

(** X2. When the nine lookups of [update_sheet] succeed, the nine columns
    lie inside the header row and are pairwise distinct; in particular no
    output column is the link column, so the links are never written
    over. *)
Theorem resolved_columns_distinct (headers : list string) (cs : columns) :
  resolve_columns headers = Ok cs ->
  NoDup (column_list cs)
  /\ Forall (fun c => 1 <= c <= length headers) (column_list cs)
  /\ ~ In (col_link cs) (output_columns cs)
  /\ map (fun c => nth_error headers (c - 1)) (column_list cs)
     = map Some required_columns.
Proof. apply resolved_columns_facts. Qed.

Lemma resolved_columns_distinct_witness :
  NoDup (column_list (mkColumns 1 2 3 4 5 6 7 8 9))
  /\ ~ In 1 (output_columns (mkColumns 1 2 3 4 5 6 7 8 9)).
Proof.
  destruct (resolved_columns_distinct required_columns
              (mkColumns 1 2 3 4 5 6 7 8 9) eq_refl) as (Hnd & _ & Hlink & _).
  split; [exact Hnd | exact Hlink].
Defined.

Lemma item_in_range {A : Type} (l : list A) (i : nat) (d : A) :
  i < length l -> PyStr.item l i = Ok (nth i l d).
Proof.
  intros H. unfold PyStr.item.
  now rewrite (nth_error_nth' l d H).
Qed.

Lemma item_out_of_range {A : Type} (l : list A) (i : nat) :
  length l <= i -> PyStr.item l i = Raise IndexError.
Proof.
  intros H. unfold PyStr.item.
  now rewrite (proj2 (nth_error_None l i) H).
Qed.

Lemma collect_links_rectangular (idx : nat) (rows : list (list string)) :
  (forall row, In row rows -> idx < length row) ->
  collect_links idx rows = Ok (link_cells idx rows).
Proof.
  induction rows as [| row rest IH]; intros Hrect; [reflexivity |].
  cbn [collect_links].
  rewrite (item_in_range row idx "") by (apply Hrect; now left).
  cbn [bind]. rewrite IH by (intros r Hr; apply Hrect; now right).
  cbn [bind]. unfold link_cells, link_cell. cbn [map List.filter].
  now destruct (PyStr.strip (nth idx row "")).
Qed.

Lemma collect_links_short_row (idx : nat) (rows : list (list string)) :
  (exists row, In row rows /\ length row <= idx) ->
  collect_links idx rows = Raise IndexError.
Proof.
  induction rows as [| row rest IH]; intros (r & Hin & Hshort);
    [destruct Hin |].
  cbn [collect_links].
  destruct (Nat.le_gt_cases (length row) idx) as [Hle | Hgt].
  - now rewrite (item_out_of_range row idx Hle).
  - rewrite (item_in_range row idx "" Hgt). cbn [bind].
    destruct Hin as [-> | Hin]; [lia |].
    rewrite IH by eauto. reflexivity.
Qed.

(** X3. [get_links] has three outcomes on a sheet with a header row. Without
    ["link"] in the header row it raises its [RuntimeError]. With ["link"]
    leftmost at position [idx], it raises [IndexError] as soon as one row is
    too short to have that cell, and otherwise returns, in row order, the
    stripped cells of that column that are not empty. *)
Theorem get_links_outcomes (headers : list string) (rows : list (list string)) :
  (~ In "link" headers ->
   get_links (headers :: rows)
   = Raise (RuntimeError
              "Column 'link' not found in the first row of the sheet"))
  /\ forall idx,
       PyStr.index "link" headers = Ok idx ->
       ((forall row, In row rows -> idx < length row) ->
        get_links (headers :: rows) = Ok (link_cells idx rows))
       /\ ((exists row, In row rows /\ length row <= idx) ->
           get_links (headers :: rows) = Raise IndexError).
Proof.
  split.
  - intros Hno. cbn [get_links].
    destruct (PyStr.index "link" headers) as [i | e] eqn:Hi; [| reflexivity].
    destruct (index_leftmost _ _ _ Hi) as [Hn _].
    exfalso. apply Hno. eapply nth_error_In. exact Hn.
  - intros idx Hidx. cbn [get_links]. rewrite Hidx. split.
    + apply collect_links_rectangular.
    + apply collect_links_short_row.
Qed.

Lemma get_links_outcomes_witness :
  get_links [["title"; "link"]; ["a"; "  u1 "]; ["b"; "   "]; ["c"; "u2"]]
  = Ok ["u1"; "u2"]
  /\ get_links [["title"; "link"]; ["a"; "u1"]; ["b"]] = Raise IndexError.
Proof.
  destruct (proj2 (get_links_outcomes ["title"; "link"]
                     [["a"; "  u1 "]; ["b"; "   "]; ["c"; "u2"]]) 1 eq_refl)
    as [Hok _].
  destruct (proj2 (get_links_outcomes ["title"; "link"]
                     [["a"; "u1"]; ["b"]]) 1 eq_refl) as [_ Hshort].
  split.
  - rewrite Hok; [reflexivity |].
    intros row [<- | [<- | [<- | []]]]; simpl; lia.
  - apply Hshort. exists ["b"]. split; [simpl; tauto | simpl; lia].
Defined.

Lemma strip_clean (s : string) :
  starts_clean (PyStr.strip s) /\ ends_clean (PyStr.strip s)
  /\ PyStr.strip (PyStr.strip s) = PyStr.strip s.
Proof.
  unfold PyStr.strip.
  pose proof (starts_clean_rstrip _ (starts_clean_lstrip s)) as Hs.
  split; [exact Hs | split; [apply ends_clean_rstrip |]].
  rewrite (lstrip_clean _ Hs). apply rstrip_idem.
Qed.

Lemma collect_links_clean (idx : nat) (rows : list (list string)) :
  forall links,
    collect_links idx rows = Ok links ->
    length links <= length rows
    /\ Forall (fun l => l <> "" /\ starts_clean l /\ ends_clean l
                       /\ PyStr.strip l = l) links.
Proof.
  induction rows as [| row rest IH]; intros links; cbn [collect_links].
  - intros [= <-]. split; [reflexivity | constructor].
  - destruct (PyStr.item row idx) as [c | e]; cbn [bind]; [| discriminate].
    destruct (collect_links idx rest) as [ls | e]; cbn [bind]; [| discriminate].
    destruct (IH ls eq_refl) as [Hlen Hall].
    destruct (strip_clean c) as (Hs & He & Hi).
    destruct (PyStr.strip c) as [| a t] eqn:Hc; intros [= <-]; simpl.
    + split; [lia | exact Hall].
    + split; [lia |]. constructor; [| exact Hall].
      split; [discriminate | auto].
Qed.

(** X4. Whatever the sheet, the links [get_links] returns are never empty
    and carry no white space at either end (stripping them again changes
    nothing), and there are no more of them than rows below the header. *)
Theorem get_links_clean (vals : list (list string)) (links : list string) :
  get_links vals = Ok links ->
  length links <= length vals - 1
  /\ Forall (fun l => l <> "" /\ starts_clean l /\ ends_clean l
                     /\ PyStr.strip l = l) links.
Proof.
  destruct vals as [| headers rows]; cbn [get_links].
  - intros [= <-]. split; [reflexivity | constructor].
  - destruct (PyStr.index "link" headers); [| discriminate].
    intros H. destruct (collect_links_clean _ _ _ H) as [Hlen Hall].
    split; [simpl; lia | exact Hall].
Qed.

Lemma get_links_clean_witness :
  Forall (fun l => l <> "" /\ starts_clean l /\ ends_clean l
                   /\ PyStr.strip l = l) ["u1"; "u2"].
Proof.
  apply (get_links_clean
           [["title"; "link"]; ["a"; "  u1 "]; ["b"; "   "]; ["c"; "u2"]]
           ["u1"; "u2"] eq_refl).
Defined.

End SheetFacts.

(** ** Writing the sheet: update_sheet *)

Module UpdateFacts.
Import Main Observe Labels Shape TextFacts SheetFacts.

Lemma str_of_nat_fuel_S (f n : nat) (acc : string) :
  PyStr.str_of_nat_fuel (S f) n acc
  = if n <? 10 then String (PyStr.digit (n mod 10)) acc
    else PyStr.str_of_nat_fuel f (n / 10) (String (PyStr.digit (n mod 10)) acc).
Proof. reflexivity. Qed.

Lemma str_of_nat_fuel_acc (fuel : nat) :
  forall n acc,
    PyStr.str_of_nat_fuel fuel n acc
    = PyStr.str_of_nat_fuel fuel n "" +:+ acc.
Proof.
  induction fuel as [| f IH]; intros n acc; [reflexivity |].
  rewrite !str_of_nat_fuel_S.
  destruct (n <? 10); [reflexivity |].
  rewrite (IH _ (String _ acc)), (IH _ (String _ "")).
  now rewrite append_assoc.
Qed.

Lemma digits_value_from_snoc (s : string) :
  forall acc c,
    digits_value_from acc (s +:+ String c "")
    = 10 * digits_value_from acc s + digit_value c.
Proof.
  induction s as [| a s IH]; intros acc c; [reflexivity |].
  rewrite append_cons. simpl. apply IH.
Qed.

Lemma all_digits_snoc (s : string) (c : ascii) :
  all_digits (s +:+ String c "") = all_digits s && is_digit c.
Proof.
  induction s as [| a s IH].
  - rewrite append_nil_l. simpl. apply andb_comm.
  - rewrite append_cons. simpl. rewrite IH. apply andb_assoc.
Qed.

Lemma digit_code (d : nat) : d < 10 -> nat_of_ascii (PyStr.digit d) = 48 + d.
Proof. intros H. unfold PyStr.digit. apply nat_ascii_embedding. lia. Qed.

(** [str] writes a number in decimal: the fuel of the loop suffices. *)
Lemma str_of_nat_fuel_spec (f : nat) :
  forall n,
    n <= f ->
    digits_value (PyStr.str_of_nat_fuel (S f) n "") = n
    /\ all_digits (PyStr.str_of_nat_fuel (S f) n "") = true.
Proof.
  induction f as [| f IH]; intros n Hn; rewrite str_of_nat_fuel_S.
  - replace n with 0 by lia. split; reflexivity.
  - destruct (Nat.ltb_spec n 10) as [Hlt | Hge].
    + rewrite Nat.mod_small by lia.
      unfold digits_value. cbn [digits_value_from all_digits].
      unfold digit_value, is_digit. rewrite digit_code by lia.
      split; [lia |].
      rewrite andb_true_r. apply andb_true_intro.
      split; apply Nat.leb_le; lia.
    + rewrite str_of_nat_fuel_acc.
      assert (Hq : n / 10 <= f).
      { pose proof (Nat.div_lt n 10 ltac:(lia) ltac:(lia)). lia. }
      destruct (IH (n / 10) Hq) as [Hv Hd].
      pose proof (Nat.mod_upper_bound n 10 ltac:(lia)) as Hm.
      unfold digits_value in *.
      rewrite digits_value_from_snoc, all_digits_snoc, Hv, Hd.
      unfold digit_value, is_digit. rewrite digit_code by lia.
      split.
      * pose proof (Nat.div_mod_eq n 10). lia.
      * apply andb_true_intro. split; [reflexivity |].
        apply andb_true_intro. split; apply Nat.leb_le; lia.
Qed.

Lemma str_of_nat_value (n : nat) : digits_value (PyStr.str_of_nat n) = n.
Proof. apply (str_of_nat_fuel_spec n n). lia. Qed.

Lemma str_of_nat_digits (n : nat) : all_digits (PyStr.str_of_nat n) = true.
Proof. apply (str_of_nat_fuel_spec n n). lia. Qed.

Lemma upper_not_digit (c : ascii) : is_upper c = true -> is_digit c = false.
Proof.
  unfold is_upper, is_digit. intros H.
  apply andb_true_iff in H as [H _]. apply Z.leb_le in H.
  apply andb_false_iff. right. apply Nat.leb_gt. lia.
Qed.

(** A run of letters followed by a run of digits splits in one way only. *)
Lemma letters_digits_split (a : string) :
  forall a' b b',
    all_upper a = true -> all_upper a' = true ->
    all_digits b = true -> all_digits b' = true ->
    a +:+ b = a' +:+ b' -> a = a' /\ b = b'.
Proof.
  induction a as [| x a IH]; intros [| x' a'] b b' Ha Ha' Hb Hb' Heq.
  - now rewrite !append_nil_l in Heq.
  - rewrite append_nil_l, append_cons in Heq. subst b. simpl in *.
    apply andb_true_iff in Ha' as [Hx _]. apply andb_true_iff in Hb as [Hd _].
    rewrite (upper_not_digit _ Hx) in Hd. discriminate.
  - rewrite append_nil_l, append_cons in Heq. subst b'. simpl in *.
    apply andb_true_iff in Ha as [Hx _]. apply andb_true_iff in Hb' as [Hd _].
    rewrite (upper_not_digit _ Hx) in Hd. discriminate.
  - rewrite !append_cons in Heq. injection Heq as <- Heq. simpl in *.
    apply andb_true_iff in Ha as [_ Ha]. apply andb_true_iff in Ha' as [_ Ha'].
    destruct (IH a' b b' Ha Ha' Hb Hb' Heq) as [-> ->]. auto.
Qed.

Lemma a1_inj (r c r' c' : nat) :
  a1 (r, c) = a1 (r', c') -> 0 < c -> 0 < c' -> r = r' /\ c = c'.
Proof.
  unfold a1. cbn [fst snd]. intros Heq Hc Hc'.
  apply letters_digits_split in Heq as [Hl Hd];
    try apply ColumnLetters.all_upper_column_to_letter;
    try apply str_of_nat_digits; try lia.
  split.
  - rewrite <- (str_of_nat_value r), <- (str_of_nat_value r'). now rewrite Hd.
  - apply Nat2Z.inj.
    rewrite <- (ColumnLetters.letters_value_column_to_letter (Z.of_nat c)),
      <- (ColumnLetters.letters_value_column_to_letter (Z.of_nat c')) by lia.
    now rewrite Hl.
Qed.

(** X5. The range [add] writes for a cell names that cell and no other: it
    is the column label followed by the row in decimal, and two updates
    with the same range address the same row and column. *)
Theorem add_range_names_one_cell (r c r' c' : nat) (v v' : cell) :
  0 < c -> 0 < c' ->
  range (add r c v) = range (add r' c' v') ->
  r = r' /\ c = c'.
Proof. intros Hc Hc' Heq. now apply a1_inj. Qed.

Lemma add_range_names_one_cell_witness :
  range (add 12 28 (CStr "x")) = "AB12"
  /\ (range (add 12 28 (CStr "x")) = range (add 12 28 (CInt 0)) ->
      12 = 12 /\ 28 = 28).
Proof.
  split; [reflexivity |].
  apply (add_range_names_one_cell 12 28 12 28); lia.
Defined.

Lemma item_updates_ranges (cs : columns) (r : nat) (it : Item) :
  map range (item_updates cs r it)
  = map a1 (map (fun c => (r, c)) (output_columns cs)).
Proof. reflexivity. Qed.

Lemma rows_updates_rectangular (cs : columns) (items : gmap string Item)
    (rows : list (list string)) :
  (forall row, In row rows -> col_link cs - 1 < length row) ->
  forall k acc,
    rows_updates cs items k rows acc
    = Ok (acc ++ expected_updates cs items k rows).
Proof.
  induction rows as [| row rest IH]; intros Hrect k acc.
  - simpl. now rewrite app_nil_r.
  - cbn [rows_updates expected_updates].
    rewrite (item_in_range row _ "") by (apply Hrect; now left).
    cbn [bind]. fold (link_cell (col_link cs - 1) row).
    assert (Hrest : forall r, In r rest -> col_link cs - 1 < length r)
      by (intros r Hr; apply Hrect; now right).
    destruct (items !! link_cell (col_link cs - 1) row) as [it |].
    + rewrite (IH Hrest). now rewrite <- app_assoc.
    + now rewrite (IH Hrest).
Qed.

Lemma rows_updates_short_row (cs : columns) (items : gmap string Item)
    (rows : list (list string)) :
  (exists row, In row rows /\ length row <= col_link cs - 1) ->
  forall k acc, rows_updates cs items k rows acc = Raise IndexError.
Proof.
  induction rows as [| row rest IH]; intros (r & Hin & Hshort) k acc;
    [destruct Hin |].
  cbn [rows_updates].
  destruct (Nat.le_gt_cases (length row) (col_link cs - 1)) as [Hle | Hgt].
  - now rewrite (item_out_of_range row _ Hle).
  - rewrite (item_in_range row _ "" Hgt). cbn [bind].
    destruct Hin as [-> | Hin]; [lia |].
    destruct (items !! _); apply IH; eauto.
Qed.

Lemma expected_updates_ranges (cs : columns) (items : gmap string Item)
    (rows : list (list string)) :
  forall k,
    map range (expected_updates cs items k rows)
    = map a1 (written_cells cs items k rows).
Proof.
  induction rows as [| row rest IH]; intros k; [reflexivity |].
  cbn [expected_updates written_cells]. rewrite !map_app, IH.
  unfold row_matched.
  destruct (items !! link_cell (col_link cs - 1) row); [| reflexivity].
  now rewrite item_updates_ranges.
Qed.

Lemma expected_updates_length (cs : columns) (items : gmap string Item)
    (rows : list (list string)) :
  forall k,
    length (expected_updates cs items k rows)
    = 8 * length (List.filter (row_matched items (col_link cs - 1)) rows).
Proof.
  induction rows as [| row rest IH]; intros k; [reflexivity |].
  cbn [expected_updates List.filter]. rewrite length_app, IH.
  unfold row_matched at 2.
  destruct (items !! link_cell (col_link cs - 1) row); simpl; lia.
Qed.

Lemma written_cells_in (cs : columns) (items : gmap string Item)
    (rows : list (list string)) :
  forall k pos,
    In pos (written_cells cs items k rows) ->
    k <= fst pos < k + length rows /\ In (snd pos) (output_columns cs).
Proof.
  induction rows as [| row rest IH]; intros k pos; [intros [] |].
  cbn [written_cells]. rewrite in_app_iff. intros [Hin | Hin].
  - destruct (row_matched items (col_link cs - 1) row); [| destruct Hin].
    apply in_map_iff in Hin as (c & <- & Hc). simpl. split; [lia | exact Hc].
  - destruct (IH _ _ Hin) as [Hr Hc]. simpl. split; [lia | exact Hc].
Qed.

Lemma written_cells_NoDup (cs : columns) (items : gmap string Item)
    (rows : list (list string)) :
  NoDup (output_columns cs) ->
  forall k, NoDup (written_cells cs items k rows).
Proof.
  intros Hcols. induction rows as [| row rest IH]; intros k;
    [constructor |].
  cbn [written_cells]. apply NoDup_app. split; [| split; [| apply IH]].
  - destruct (row_matched items (col_link cs - 1) row); [| constructor].
    apply (NoDup_fmap_2_strong (fun c => (k, c))); [| exact Hcols].
    intros c c' _ _ [= ->]. reflexivity.
  - intros pos Hpos Hrest.
    apply list_elem_of_In in Hrest. apply written_cells_in in Hrest.
    destruct (row_matched items (col_link cs - 1) row);
      [| now apply elem_of_nil in Hpos].
    apply list_elem_of_In, in_map_iff in Hpos as (c & <- & _).
    simpl in Hrest. lia.
Qed.

Lemma expected_updates_row (cs : columns) (items : gmap string Item)
    (rows : list (list string)) :
  forall k i row it u,
    nth_error rows i = Some row ->
    items !! link_cell (col_link cs - 1) row = Some it ->
    In u (item_updates cs (k + i) it) ->
    In u (expected_updates cs items k rows).
Proof.
  induction rows as [| r rest IH]; intros k i row it u Hnth Hit Hu.
  - now destruct i.
  - cbn [expected_updates]. apply in_app_iff. destruct i as [| i].
    + injection Hnth as ->. rewrite Hit. left.
      now rewrite Nat.add_0_r in Hu.
    + right. apply (IH (S k) i row it u Hnth Hit).
      now replace (S k + i) with (k + S i) by lia.
Qed.

Section Batch.
Variable headers : list string.
Variable rows : list (list string).
Variable cs : columns.
Variable items : gmap string Item.
Hypothesis Hcols : resolve_columns headers = Ok cs.
Hypothesis Hrect : forall row, In row rows -> col_link cs <= length row.

Lemma link_column_positive : 1 <= col_link cs.
Proof.
  destruct (resolved_columns_facts headers cs Hcols) as (_ & Hall & _).
  unfold column_list in Hall. now inversion Hall.
Qed.

Lemma sheet_updates_rectangular :
  sheet_updates (headers :: rows) items
  = Ok (expected_updates cs items 2 rows).
Proof.
  cbn [sheet_updates]. rewrite Hcols. cbn [bind].
  rewrite rows_updates_rectangular; [reflexivity |].
  intros row Hin. pose proof (Hrect row Hin). pose proof link_column_positive.
  lia.
Qed.

(** X6. On a sheet whose header row has the nine columns and whose rows all
    reach the link column, [update_sheet] builds eight updates for every
    row whose stripped link is a key of [items], and none for the other
    rows; every update addresses a row below the header (sheet rows are
    counted from 1, the header being row 1) and one of the eight output
    columns, never the link column. *)
Theorem update_sheet_eight_per_row :
  exists updates,
    sheet_updates (headers :: rows) items = Ok updates
    /\ length updates
       = 8 * length (List.filter (row_matched items (col_link cs - 1)) rows)
    /\ map range updates = map a1 (written_cells cs items 2 rows)
    /\ Forall (fun pos => 2 <= fst pos <= length rows + 1
                         /\ In (snd pos) (output_columns cs)
                         /\ snd pos <> col_link cs)
         (written_cells cs items 2 rows).
Proof.
  exists (expected_updates cs items 2 rows).
  split; [apply sheet_updates_rectangular |].
  split; [apply expected_updates_length |].
  split; [apply expected_updates_ranges |].
  apply List.Forall_forall. intros pos Hpos.
  destruct (written_cells_in _ _ _ _ _ Hpos) as [Hr Hc].
  split; [lia | split; [exact Hc |]].
  destruct (resolved_columns_facts headers cs Hcols) as (_ & _ & Hlink & _).
  intros Heq. apply Hlink. now rewrite <- Heq.
Qed.

(** X7. Under the same conditions no two updates of the batch address the
    same cell: the ranges of the batch are pairwise distinct. *)
Theorem update_sheet_ranges_distinct :
  exists updates,
    sheet_updates (headers :: rows) items = Ok updates
    /\ NoDup (map range updates).
Proof.
  exists (expected_updates cs items 2 rows).
  split; [apply sheet_updates_rectangular |].
  rewrite expected_updates_ranges.
  destruct (resolved_columns_facts headers cs Hcols) as (Hnd & Hall & _).
  assert (Hout : NoDup (output_columns cs)).
  { unfold column_list, output_columns in *. simpl.
    now apply NoDup_cons_1_2 in Hnd. }
  assert (Hpos : forall c, In c (output_columns cs) -> 0 < c).
  { intros c Hc. rewrite Forall_forall in Hall.
    assert (c ∈ column_list cs) as Hin.
    { unfold column_list, output_columns in *. simpl in *.
      apply list_elem_of_In. now right. }
    specialize (Hall c Hin). simpl in Hall. lia. }
  apply (NoDup_fmap_2_strong a1); [| now apply written_cells_NoDup].
  intros [r c] [r' c'] Hin Hin' Heq.
  apply list_elem_of_In, written_cells_in in Hin as [_ Hc].
  apply list_elem_of_In, written_cells_in in Hin' as [_ Hc'].
  destruct (a1_inj _ _ _ _ Heq) as [-> ->]; auto.
Qed.

(** X8. Under the same conditions the batch carries the record of each
    matching row to that row: for the row at position [i] below the header
    (sheet row [i + 2]) with record [it], the batch holds, for each of the
    eight fields, the update of the cell in that row and in the column of
    the field, with the field as value and the empty text for [None]. *)
Theorem update_sheet_writes_record (i : nat) (row : list string) (it : Item) :
  nth_error rows i = Some row ->
  items !! PyStr.strip (nth (col_link cs - 1) row "") = Some it ->
  exists updates,
    sheet_updates (headers :: rows) items = Ok updates
    /\ Forall (fun u => In u updates)
         [ add (i + 2) (col_price cs) (val (price it));
           add (i + 2) (col_shipping cs) (val_cell (shipping it));
           add (i + 2) (col_delivery cs) (val (delivery it));
           add (i + 2) (col_title cs) (val (title it));
           add (i + 2) (col_condition cs) (val (condition it));
           add (i + 2) (col_mpn cs) (val (mpn it));
           add (i + 2) (col_brand cs) (val (brand it));
           add (i + 2) (col_model cs) (val (model it)) ].
Proof.
  intros Hnth Hit. exists (expected_updates cs items 2 rows).
  split; [apply sheet_updates_rectangular |].
  apply List.Forall_forall. intros u Hu.
  apply (expected_updates_row cs items rows 2 i row it u Hnth Hit).
  now rewrite (Nat.add_comm 2 i).
Qed.

(** X9. When a row is too short to reach the link column, [update_sheet]
    raises [IndexError] and sends nothing, whatever the other rows hold. *)
Theorem update_sheet_short_row {World : Type} (st : @state World) :
  (exists row, In row rows /\ length row < col_link cs) ->
  update_sheet (headers :: rows) items st = (Raise IndexError, st).
Proof.
  intros (row & Hin & Hshort). unfold update_sheet. cbn [sheet_updates].
  rewrite Hcols. cbn [bind].
  rewrite rows_updates_short_row; [reflexivity |].
  exists row. split; [exact Hin | lia].
Qed.

End Batch.

Ltac each_row :=
  let row := fresh "row" in
  intros row [<- | [<- | [<- | []]]]; simpl; lia.

Lemma update_sheet_eight_per_row_witness :
  exists updates,
    sheet_updates (nine_headers :: three_rows) {[ "u1" := new_Item "u1" ]}
    = Ok updates
    /\ length updates = 8
    /\ map range updates = ["B2"; "C2"; "D2"; "E2"; "F2"; "G2"; "H2"; "I2"].
Proof.
  destruct (update_sheet_eight_per_row nine_headers three_rows nine_columns
              {[ "u1" := new_Item "u1" ]} eq_refl ltac:(each_row))
    as (ups & Hups & Hlen & Hranges & _).
  exists ups. split; [exact Hups | split].
  - rewrite Hlen. vm_compute. reflexivity.
  - rewrite Hranges. vm_compute. reflexivity.
Defined.

Lemma update_sheet_ranges_distinct_witness :
  exists updates,
    sheet_updates (nine_headers :: three_rows)
      {[ "u1" := new_Item "u1"; "u2" := new_Item "u2" ]}
    = Ok updates
    /\ NoDup (map range updates).
Proof.
  apply (update_sheet_ranges_distinct nine_headers three_rows nine_columns
           {[ "u1" := new_Item "u1"; "u2" := new_Item "u2" ]} eq_refl).
  each_row.
Defined.

Lemma update_sheet_writes_record_witness :
  exists updates,
    sheet_updates (nine_headers :: three_rows)
      {[ "u2" := set_price (new_Item "u2") (Some "12.50") ]}
    = Ok updates
    /\ In (mkUpdate "B4" [[CStr "12.50"]]) updates
    /\ In (mkUpdate "I4" [[CStr ""]]) updates.
Proof.
  destruct (update_sheet_writes_record nine_headers three_rows nine_columns
              {[ "u2" := set_price (new_Item "u2") (Some "12.50") ]}
              eq_refl ltac:(each_row) 2
              ["u2"; "9.99"; ""; ""; ""; ""; ""; ""; ""]
              (set_price (new_Item "u2") (Some "12.50")) eq_refl eq_refl)
    as (ups & Hups & Hall).
  exists ups. split; [exact Hups |].
  rewrite List.Forall_forall in Hall. split; apply Hall; simpl; tauto.
Defined.

Lemma update_sheet_short_row_witness :
  update_sheet (nine_headers :: [["u1"; "old"]; []])
    {[ "u1" := new_Item "u1" ]} (mkState tt [])
  = (Raise IndexError, mkState tt []).
Proof.
  apply (update_sheet_short_row nine_headers [["u1"; "old"]; []] nine_columns
           {[ "u1" := new_Item "u1" ]} eq_refl (mkState tt [])).
  exists []. split; [simpl; tauto | simpl; lia].
Defined.

End UpdateFacts.

(** ** A whole run on a well-formed sheet *)

Module WholeRun.
Import Main Observe Shape TextFacts SheetFacts UpdateFacts.

Lemma length_filter_map {A B : Type} (f : A -> B) (p : B -> bool)
    (l : list A) :
  length (List.filter p (map f l))
  = length (List.filter (fun a => p (f a)) l).
Proof.
  induction l as [| a l IH]; [reflexivity |]. simpl.
  destruct (p (f a)); simpl; now rewrite IH.
Qed.

Lemma updates_of_empty_record (cs : columns) (r : nat) (l : string) :
  Forall (fun u => values u = [[CStr ""]]) (item_updates cs r (new_Item l)).
Proof. repeat constructor. Qed.

Lemma expected_updates_empty_records (cs : columns)
    (items : gmap string Item) (rows : list (list string)) :
  (forall k it, items !! k = Some it -> it = new_Item k) ->
  forall r,
    Forall (fun u => values u = [[CStr ""]])
      (expected_updates cs items r rows).
Proof.
  intros Hnew. induction rows as [| row rest IH]; intros r; [constructor |].
  cbn [expected_updates]. apply Forall_app. split; [| apply IH].
  destruct (items !! link_cell (col_link cs - 1) row) as [it |] eqn:Hit;
    [| constructor].
  rewrite (Hnew _ _ Hit). apply updates_of_empty_record.
Qed.

Section Run.
Context {World : Type}.
Variable navigate : string -> bool -> World -> result string * World.
Variable P : ParserOps.
Variable headers : list string.
Variable rows : list (list string).
Variable cs : columns.
Hypothesis Hcols : resolve_columns headers = Ok cs.
Hypothesis Hrect : forall row, In row rows -> col_link cs <= length row.

Lemma link_index : PyStr.index "link" headers = Ok (col_link cs - 1).
Proof.
  pose proof (resolve_columns_ok_inv _ _ Hcols) as H.
  unfold required_columns, column_list in H. simpl in H.
  injection H as H _. unfold col in H.
  destruct (PyStr.index "link" headers) as [i | e]; [| discriminate].
  injection H as <-. f_equal. lia.
Qed.

Lemma get_links_well_formed :
  get_links (headers :: rows) = Ok (link_cells (col_link cs - 1) rows).
Proof.
  cbn [get_links]. rewrite link_index.
  apply collect_links_rectangular.
  intros row Hin. pose proof (Hrect row Hin).
  pose proof (link_column_positive headers cs Hcols). lia.
Qed.

Lemma nonempty_spec (s : string) : nonempty s = true <-> s <> "".
Proof. destruct s; simpl; split; congruence. Qed.

(** A row has a record in the dict of the run exactly when its link cell
    is not blank. *)
Lemma row_matched_after_run (st : state) (row : list string) :
  In row rows ->
  row_matched
    (fst (resolve_all navigate P (link_cells (col_link cs - 1) rows) ∅ st))
    (col_link cs - 1) row
  = nonempty (link_cell (col_link cs - 1) row).
Proof.
  intros Hin. unfold row_matched.
  set (idx := col_link cs - 1). set (links := link_cells idx rows).
  pose proof (RunFacts.resolve_all_dom navigate P links ∅ st) as Hdom.
  rewrite dom_empty_L, (right_id_L ∅ (∪)) in Hdom.
  assert (Hkey : link_cell idx row ∈ links <-> nonempty (link_cell idx row) = true).
  { unfold links, link_cells. rewrite list_elem_of_In, List.filter_In, in_map_iff.
    split; [tauto |]. intros Hne. split; [eauto | exact Hne]. }
  destruct (fst (resolve_all navigate P links ∅ st) !! link_cell idx row)
    as [it |] eqn:Hit.
  - assert (Hd : link_cell idx row ∈ dom (fst (resolve_all navigate P links ∅ st)))
      by (apply elem_of_dom; eauto).
    rewrite Hdom in Hd. apply elem_of_list_to_set in Hd.
    symmetry. now apply Hkey.
  - destruct (nonempty (link_cell idx row)) eqn:Hne; [| reflexivity].
    apply not_elem_of_dom in Hit. exfalso. apply Hit. rewrite Hdom.
    apply elem_of_list_to_set. now apply Hkey.
Qed.

Lemma matched_rows_after_run (st : state) :
  length
    (List.filter
       (row_matched
          (fst (resolve_all navigate P (link_cells (col_link cs - 1) rows)
                  ∅ st))
          (col_link cs - 1)) rows)
  = length (link_cells (col_link cs - 1) rows).
Proof.
  unfold link_cells at 2. rewrite length_filter_map. f_equal.
  apply List.filter_ext_in. intros row Hin. now apply row_matched_after_run.
Qed.

Lemma parse_item_blocked (l : string) (st : state) :
  (forall url b w, fst (Request.get_page navigate url b w) = None) ->
  fst (parse_item navigate P l st) = new_Item l.
Proof.
  intros Hblocked.
  assert (Hnone : forall k it s,
            attempt_body navigate P l k it s
            = (Continue it,
               mkState (snd (Request.get_page navigate l (1 <? k) (world s)))
                 (trace s ++ [EvFetch l (1 <? k)]))).
  { intros k it s. apply ResolverFacts.attempt_body_none.
    specialize (Hblocked l (1 <? k) (world s)).
    destruct (Request.get_page navigate l (1 <? k) (world s)) as [p w'].
    simpl in *. now subst. }
  unfold parse_item, attempts. cbn [List.seq attempts_loop].
  now rewrite !Hnone.
Qed.

Lemma resolve_all_blocked (links : list string) :
  (forall url b w, fst (Request.get_page navigate url b w) = None) ->
  forall (items : gmap string Item) (st : state),
    (forall k it, items !! k = Some it -> it = new_Item k) ->
    forall k it,
      fst (resolve_all navigate P links items st) !! k = Some it ->
      it = new_Item k.
Proof.
  intros Hblocked. induction links as [| l rest IH]; intros items st Hnew;
    [exact Hnew |].
  cbn [resolve_all]. pose proof (parse_item_blocked l st Hblocked) as Hit.
  destruct (parse_item navigate P l st) as [item st']. simpl in Hit. subst.
  apply IH. intros k it. rewrite lookup_insert.
  destruct (decide (l = k)) as [-> |]; [now intros [= <-] | apply Hnew].
Qed.

(** X11. When the site never yields a page, the run on such a sheet still
    ends normally and the batch writes the empty string into the eight
    output cells of every row with a link: what those cells held is
    overwritten. *)
Theorem main_blocked_site_blanks_rows (st : state) :
  (forall url b w, fst (Request.get_page navigate url b w) = None) ->
  exists updates,
    sheet_updates (headers :: rows)
      (fst (resolve_all navigate P (link_cells (col_link cs - 1) rows) ∅ st))
    = Ok updates
    /\ length updates = 8 * length (link_cells (col_link cs - 1) rows)
    /\ Forall (fun u => values u = [[CStr ""]]) updates
    /\ fst (main navigate P (headers :: rows) st) = Ok tt.
Proof.
  intros Hblocked.
  set (links := link_cells (col_link cs - 1) rows).
  set (items := fst (resolve_all navigate P links ∅ st)).
  exists (expected_updates cs items 2 rows).
  assert (Hups : sheet_updates (headers :: rows) items
                 = Ok (expected_updates cs items 2 rows))
    by now apply sheet_updates_rectangular.
  split; [exact Hups | split; [| split]].
  - rewrite expected_updates_length. unfold items, links.
    now rewrite matched_rows_after_run.
  - apply expected_updates_empty_records. unfold items.
    apply (resolve_all_blocked links Hblocked ∅ st).
    intros k it. now rewrite lookup_empty.
  - unfold main. rewrite get_links_well_formed. fold links.
    destruct (resolve_all navigate P links ∅ st) as [its st'] eqn:Hrun.
    unfold items in Hups. cbn [fst] in Hups.
    unfold update_sheet. rewrite Hups.
    now destruct (expected_updates cs its 2 rows).
Qed.

End Run.

Lemma main_blocked_site_blanks_rows_witness :
  exists updates,
    sheet_updates (nine_headers :: three_rows)
      (fst (resolve_all blocked_navigate echo_parser ["u1"; "u2"] ∅
              (mkState tt [])))
    = Ok updates
    /\ length updates = 16
    /\ Forall (fun u => values u = [[CStr ""]]) updates.
Proof.
  destruct (main_blocked_site_blanks_rows blocked_navigate echo_parser
              nine_headers three_rows nine_columns eq_refl ltac:(each_row)
              (mkState tt []) ltac:(intros; reflexivity))
    as (ups & Hups & Hlen & Hblank & _).
  exists ups. split; [exact Hups | split; [exact Hlen | exact Hblank]].
Defined.

End WholeRun.

(** ** More on the resolver *)

Module ResolverMore.
Import Main Observe Shape ResolverFacts.

Section Resolver.
Context {World : Type}.
Variable navigate : string -> bool -> World -> result string * World.
Variable P : ParserOps.

Lemma attempt_body_events (l : string) (k : nat) (item : Item) (st : state) :
  exists evs,
    trace (snd (attempt_body navigate P l k item st)) = trace st ++ evs
    /\ List.filter is_fetch evs = [EvFetch l (1 <? k)].
Proof.
  unfold attempt_body. pose proof (fetch_trace navigate l (1 <? k) st) as Hf.
  destruct (fetch navigate l (1 <? k) st) as [[[| c pg] |] st1]; simpl in *.
  - exists [EvFetch l (1 <? k)]. auto.
  - exists [EvFetch l (1 <? k); EvParse (String c pg)].
    destruct (try_body P (new_parser P (String c pg)) item) as [item' [[] | e]];
      simpl; rewrite Hf, <- app_assoc; auto.
  - exists [EvFetch l (1 <? k)]. auto.
Qed.

Lemma attempts_loop_events (l : string) (todo : list nat) :
  forall (item : Item) (st : state),
  exists evs n,
    trace (snd (attempts_loop navigate P l todo item st)) = trace st ++ evs
    /\ n <= length todo
    /\ (todo <> [] -> 1 <= n)
    /\ List.filter is_fetch evs
       = map (fun k => EvFetch l (1 <? k)) (firstn n todo).
Proof.
  induction todo as [| k rest IH]; intros item st; cbn [attempts_loop].
  - exists [], 0. rewrite app_nil_r. repeat split; auto; congruence.
  - destruct (attempt_body_events l k item st) as (e1 & Ht1 & Hf1).
    destruct (attempt_body navigate P l k item st) as [[item' | item'] st'];
      cbn [snd] in *.
    + exists e1, 1. repeat split; auto; simpl; lia.
    + destruct (IH item' st') as (e2 & n & Ht2 & Hn & _ & Hf2).
      exists (e1 ++ e2), (S n).
      rewrite Ht2, Ht1, <- app_assoc, List.filter_app, Hf1, Hf2.
      repeat split; auto; simpl; lia.
Qed.

(** X12. The fetches of one resolution are all for the link being
    resolved; the first is a first request and every later one is flagged
    as a retry. There are one, two or three of them. *)
Theorem parse_item_retry_flags (l : string) (st : state) :
  exists evs n,
    trace (snd (parse_item navigate P l st)) = trace st ++ evs
    /\ 1 <= n <= 3
    /\ List.filter is_fetch evs = firstn n (three_fetches l).
Proof.
  destruct (attempts_loop_events l [1; 2; 3] (new_Item l) st)
    as (evs & n & Ht & Hle & Hge & Hf).
  exists evs, n. split; [exact Ht |].
  split; [split; [apply Hge; discriminate | exact Hle] |].
  rewrite Hf. simpl in Hle.
  destruct n as [| [| [| [| n]]]]; reflexivity.
Qed.

Lemma fetched_urls_app (a b : list event) :
  fetched_urls (a ++ b) = fetched_urls a ++ fetched_urls b.
Proof. unfold fetched_urls. apply flat_map_app. Qed.

Lemma fetched_urls_filter (evs : list event) :
  fetched_urls (List.filter is_fetch evs) = fetched_urls evs.
Proof.
  induction evs as [| e evs IH]; [reflexivity |].
  destruct e; simpl; try exact IH.
  unfold fetched_urls in *. simpl. now rewrite IH.
Qed.

Lemma parse_item_fetched_urls (l : string) (st : state) :
  exists evs n,
    trace (snd (parse_item navigate P l st)) = trace st ++ evs
    /\ 1 <= n <= 3
    /\ fetched_urls evs = repeat l n.
Proof.
  destruct (attempts_loop_events l [1; 2; 3] (new_Item l) st)
    as (evs & n & Ht & Hle & Hge & Hf).
  exists evs, n. split; [exact Ht |].
  split; [split; [apply Hge; discriminate | exact Hle] |].
  rewrite <- fetched_urls_filter, Hf. simpl in Hle.
  destruct n as [| [| [| [| n]]]]; try reflexivity. lia.
Qed.

(** X13. The links are processed one after the other in input order: the
    fetches of a run are the fetches of the first link (one to three of
    them), then those of the second, and so on; a link that occurs twice
    is fetched again. *)
Theorem resolve_all_sequential (links : list string) :
  forall (items : gmap string Item) (st : state),
  exists evs counts,
    trace (snd (resolve_all navigate P links items st)) = trace st ++ evs
    /\ Forall2 (fun l n => 1 <= n <= 3) links counts
    /\ fetched_urls evs = concat (zip_with (fun l n => repeat l n) links counts).
Proof.
  induction links as [| l rest IH]; intros items st; cbn [resolve_all].
  - exists [], []. rewrite app_nil_r.
    split; [reflexivity | split; [constructor | reflexivity]].
  - destruct (parse_item_fetched_urls l st) as (e1 & n & Ht1 & Hn & Hu1).
    destruct (parse_item navigate P l st) as [item st1]. cbn [snd] in Ht1.
    destruct (IH (<[l:=item]> items) st1) as (e2 & counts & Ht2 & Hc & Hu2).
    exists (e1 ++ e2), (n :: counts).
    rewrite Ht2, Ht1, <- app_assoc, fetched_urls_app, Hu1, Hu2.
    split; [reflexivity | split; [constructor; assumption | reflexivity]].
Qed.

End Resolver.

End ResolverMore.

(** ** parser/request.py *)

Module RequestFacts.
Import Request Session.

Lemma is_bad_page_spec (html : string) :
  _is_bad_page html = false
  <-> html <> ""
      /\ Forall (fun sig => PyStr.contains sig html = false) _BAD_SIGNATURES.
Proof.
  unfold _is_bad_page. destruct html as [| c html].
  - split; [discriminate | intros [H _]; congruence].
  - rewrite <- Bool.not_true_iff_false, List.existsb_exists, List.Forall_forall.
    split.
    + intros H. split; [discriminate |]. intros sig Hin.
      apply Bool.not_true_iff_false. intros Hc. apply H. eauto.
    + intros [_ H] (sig & Hin & Hc). rewrite (H sig Hin) in Hc. discriminate.
Qed.

Section WithDriver.
Context {World : Type}.
Variable navigate : string -> bool -> World -> result string * World.

(** The [try] block of [get_page] hands on exactly the page sources that
    are not empty and hold none of the three anti-bot signatures.
    Everything else, an exception of the driver calls inside the block
    included, becomes [None]. The world afterwards is the one those calls
    left. *)
Lemma get_page_try_block (url : string) (second_req : bool) (w : World) :
  snd (get_page navigate url second_req w) = snd (navigate url second_req w)
  /\ (forall html,
        fst (get_page navigate url second_req w) = Some html
        <-> fst (navigate url second_req w) = Ok html
            /\ html <> ""
            /\ Forall (fun sig => PyStr.contains sig html = false)
                 _BAD_SIGNATURES)
  /\ (fst (get_page navigate url second_req w) = None
      <-> (exists e, fst (navigate url second_req w) = Raise e)
          \/ (exists html,
                fst (navigate url second_req w) = Ok html
                /\ _is_bad_page html = true)).
Proof.
  unfold get_page.
  destruct (navigate url second_req w) as [[html | e] w']; cbn [fst snd].
  - destruct (_is_bad_page html) eqn:Hbad; cbn [fst snd].
    + split; [reflexivity | split].
      * intros h. split; [discriminate |]. intros ([= ->] & Hne & Hsig).
        assert (_is_bad_page h = false) by now apply is_bad_page_spec.
        congruence.
      * split; [eauto | reflexivity].
    + split; [reflexivity | split].
      * intros h. split.
        -- intros [= ->]. split; [reflexivity |]. now apply is_bad_page_spec.
        -- now intros ([= ->] & _).
      * split; [discriminate |].
        intros [(e & He) | (h & [= <-] & Hh)]; congruence.
  - split; [reflexivity | split].
    + intros h. split; [discriminate | intros (H & _); discriminate].
    + split; [eauto | reflexivity].
Qed.

End WithDriver.

Section WithBrowser.
Context {World Chrome : Type}.
Variable create_driver : World -> Chrome * World.
Variable quit : Chrome -> World -> World.

Lemma get_driver_calls_started (n : nat) (d : Chrome) (w : World) :
  get_driver_calls create_driver n (Some d) w = (repeat d n, (Some d, w)).
Proof.
  induction n as [| n IH]; [reflexivity |].
  cbn [get_driver_calls get_driver]. now rewrite IH.
Qed.

(** X16. The driver is shared: however many times [get_driver] is called
    in a row, the browser is started at most once (only when none was
    there), every call returns the same driver, and the calls after the
    first change nothing. *)
Theorem get_driver_shared (n : nat) (_driver : option Chrome) (w : World) :
  get_driver_calls create_driver (S n) _driver w
  = (repeat (fst (get_driver create_driver _driver w)) (S n),
     snd (get_driver create_driver _driver w))
  /\ fst (snd (get_driver create_driver _driver w))
     = Some (fst (get_driver create_driver _driver w))
  /\ (forall d, _driver = Some d ->
        get_driver create_driver _driver w = (d, (Some d, w))).
Proof.
  split; [| split].
  - cbn [get_driver_calls].
    destruct _driver as [d |]; cbn [get_driver].
    + now rewrite get_driver_calls_started.
    + destruct (create_driver w) as [d w'].
      now rewrite get_driver_calls_started.
  - destruct _driver as [d |]; cbn [get_driver]; [reflexivity |].
    now destruct (create_driver w).
  - now intros d ->.
Qed.

(** [shutdown_driver] closes the driver once: a second call finds
    none and leaves the world alone, and the next [get_driver] starts a new
    browser. *)
Lemma shutdown_driver_once (_driver : option Chrome) (w : World) :
  fst (shutdown_driver quit _driver w) = None
  /\ shutdown_driver quit (fst (shutdown_driver quit _driver w))
       (snd (shutdown_driver quit _driver w))
     = shutdown_driver quit _driver w
  /\ (_driver = None -> shutdown_driver quit _driver w = (None, w))
  /\ get_driver create_driver (fst (shutdown_driver quit _driver w))
       (snd (shutdown_driver quit _driver w))
     = (fst (create_driver (snd (shutdown_driver quit _driver w))),
        (Some (fst (create_driver (snd (shutdown_driver quit _driver w)))),
         snd (create_driver (snd (shutdown_driver quit _driver w))))).
Proof.
  destruct _driver as [d |]; cbn [shutdown_driver get_driver fst snd].
  - repeat split; try discriminate. now destruct (create_driver (quit d w)).
  - repeat split. now destruct (create_driver w).
Qed.

End WithBrowser.

End RequestFacts.

(** ** More on column labels *)

Module LabelsMore.
Import Main Labels ColumnLetters.
Local Open Scope Z_scope.

Lemma letter_digit_bounds (c : ascii) :
  is_upper c = true -> 1 <= letter_digit c <= 26.
Proof.
  unfold is_upper, letter_digit. intros H.
  apply andb_true_iff in H as [H1 H2].
  apply Z.leb_le in H1. apply Z.leb_le in H2. lia.
Qed.

Lemma chr_letter_digit (c : ascii) : chr (64 + letter_digit c) = c.
Proof.
  unfold chr, letter_digit.
  replace (64 + (Z.of_nat (nat_of_ascii c) - 64)) with (Z.of_nat (nat_of_ascii c))
    by lia.
  rewrite Nat2Z.id. apply ascii_nat_embedding.
Qed.

Lemma column_to_letter_snoc (v : Z) (c : ascii) :
  0 <= v -> is_upper c = true ->
  column_to_letter (26 * v + letter_digit c)
  = column_to_letter v +:+ String c "".
Proof.
  intros Hv Hc. pose proof (letter_digit_bounds c Hc) as Hd.
  rewrite column_to_letter_step by lia.
  replace ((26 * v + letter_digit c - 1) / 26) with v.
  2:{ apply (Z.div_unique_pos _ 26 v (letter_digit c - 1)); lia. }
  replace ((26 * v + letter_digit c - 1) mod 26) with (letter_digit c - 1).
  2:{ apply (Z.mod_unique_pos _ 26 v (letter_digit c - 1)); lia. }
  replace (65 + (letter_digit c - 1)) with (64 + letter_digit c) by lia.
  now rewrite chr_letter_digit.
Qed.

Lemma column_to_letter_from (s : string) :
  forall acc,
    0 <= acc -> all_upper s = true ->
    0 <= letters_value_from acc s
    /\ column_to_letter (letters_value_from acc s)
       = column_to_letter acc +:+ s.
Proof.
  induction s as [| c s IH]; intros acc Hacc Hs; cbn [letters_value_from].
  - split; [exact Hacc | now rewrite append_nil_r].
  - simpl in Hs. apply andb_true_iff in Hs as [Hc Hs].
    pose proof (letter_digit_bounds c Hc) as Hd.
    destruct (IH (26 * acc + letter_digit c) ltac:(lia) Hs) as [Hpos Heq].
    split; [exact Hpos |].
    rewrite Heq, column_to_letter_snoc by assumption.
    now rewrite append_assoc.
Qed.

(** X17. Every text made of the letters A to Z is the label of the number
    it stands for in bijective base 26: reading a text and writing the
    number back gives the text. With the claim on [column_to_letter] this
    makes labels and positive numbers correspond one to one. *)
Theorem column_to_letter_of_letters_value (s : string) :
  all_upper s = true ->
  column_to_letter (letters_value s) = s
  /\ (s <> "" -> 0 < letters_value s).
Proof.
  intros Hs. unfold letters_value.
  destruct (column_to_letter_from s 0 ltac:(lia) Hs) as [Hpos Heq].
  split; [exact Heq |].
  intros Hne. destruct (Z.eq_dec (letters_value_from 0 s) 0) as [H0 |]; [| lia].
  rewrite H0 in Heq. now symmetry in Heq.
Qed.

Lemma column_to_letter_of_letters_value_witness :
  column_to_letter (letters_value "ZZ") = "ZZ" /\ letters_value "ZZ" = 702.
Proof.
  split; [| reflexivity].
  apply (column_to_letter_of_letters_value "ZZ"). reflexivity.
Defined.

(** X18. [column_to_letter] gives the empty text exactly for the numbers
    that are not positive: a column index of 0, which [col] never yields,
    would address no column. *)
Theorem column_to_letter_empty_iff (n : Z) :
  column_to_letter n = "" <-> n <= 0.
Proof.
  split.
  - intros H. destruct (Z_le_gt_dec n 0) as [Hle | Hgt]; [exact Hle |].
    rewrite column_to_letter_step in H by lia.
    now apply snoc_not_empty in H.
  - intros H. unfold column_to_letter. now apply loop_nonpos.
Qed.

End LabelsMore.

(** ** More on the field extractor *)

Module ParserMore.
Import Bs4 Parser Shape TextFacts.

Lemma prefix_append_l (sub : string) :
  forall s t,
    String.prefix sub s = true -> String.prefix sub (s +:+ t) = true.
Proof.
  induction sub as [| a sub IH]; intros s t H; [apply prefix_nil |].
  destruct s as [| b s]; [discriminate |].
  rewrite append_cons, prefix_cons in *.
  destruct (ascii_dec a b); [now apply IH | discriminate].
Qed.

Lemma contains_nil (s : string) : PyStr.contains "" s = true.
Proof. destruct s; reflexivity. Qed.

Lemma contains_append_l (sub s t : string) :
  PyStr.contains sub s = true -> PyStr.contains sub (s +:+ t) = true.
Proof.
  induction s as [| c s IH].
  - cbn [PyStr.contains]. rewrite orb_false_r.
    destruct sub; [intros _; apply contains_nil | discriminate].
  - rewrite append_cons, !contains_cons, <- append_cons.
    intros H. apply orb_true_iff in H as [H | H]; apply orb_true_iff.
    + left. now apply prefix_append_l.
    + right. now apply IH.
Qed.

Lemma contains_append_r (sub s t : string) :
  PyStr.contains sub t = true -> PyStr.contains sub (s +:+ t) = true.
Proof.
  intros H. induction s as [| c s IH]; [exact H |].
  rewrite append_cons, contains_cons, IH. apply orb_true_r.
Qed.

Lemma contains_nonempty (sub s : string) :
  sub <> "" -> PyStr.contains sub s = true -> s <> "".
Proof. intros Hsub H ->. destruct sub; [congruence | discriminate]. Qed.

Lemma join_cons (sep x y : string) (rest : list string) :
  PyStr.join sep (x :: y :: rest) = x +:+ sep +:+ PyStr.join sep (y :: rest).
Proof. reflexivity. Qed.

(** What a class token contains, the class attribute contains. *)
Lemma contains_join (sub t : string) (toks : list string) :
  In t toks -> PyStr.contains sub t = true ->
  PyStr.contains sub (PyStr.join " " toks) = true.
Proof.
  induction toks as [| x [| y rest] IH]; intros Hin Hc.
  - destruct Hin.
  - destruct Hin as [-> | []]. exact Hc.
  - rewrite join_cons. destruct Hin as [-> | Hin].
    + now apply contains_append_l.
    + apply contains_append_r, contains_append_r. now apply IH.
Qed.

Lemma contains_refl (s : string) : PyStr.contains s s = true.
Proof.
  apply ParserFacts.contains_prefix.
  rewrite <- (append_nil_r s) at 2. apply prefix_append.
Qed.

Lemma class_filter_spec (names : list string) (s : string) :
  class_filter names (Some s) = true
  <-> s <> "" /\ forall c, In c names -> PyStr.contains c s = true.
Proof.
  unfold class_filter. destruct s as [| a s].
  - split; [discriminate | intros [H _]; congruence].
  - rewrite List.forallb_forall. split; [intros H; split; [discriminate | exact H] |].
    now intros [_ H].
Qed.

(** X19. The class filter of [_get_element] works on the class attribute as
    a text: an element qualifies exactly when its class attribute, the
    tokens joined by single spaces, is not empty and contains every
    requested name as a substring. An element without class attribute never
    qualifies, and a name need not be a whole token. *)
Theorem class_filter_substrings (names toks : list string) :
  matches_fn (class_filter names) (Some toks)
  = class_filter names (Some (PyStr.join " " toks))
  /\ (matches_fn (class_filter names) (Some toks) = true
      <-> PyStr.join " " toks <> ""
          /\ forall c, In c names ->
                       PyStr.contains c (PyStr.join " " toks) = true)
  /\ matches_fn (class_filter names) None = false.
Proof.
  assert (Heq : matches_fn (class_filter names) (Some toks)
                = class_filter names (Some (PyStr.join " " toks))).
  { unfold matches_fn.
    destruct (existsb (fun t => class_filter names (Some t)) toks) eqn:Hex;
      [| reflexivity].
    apply List.existsb_exists in Hex as (t & Hin & Ht).
    apply class_filter_spec in Ht as [Hne Hall].
    symmetry. apply class_filter_spec. split.
    - apply (contains_nonempty t); [exact Hne |].
      apply (contains_join t t toks Hin), contains_refl.
    - intros c Hc. apply (contains_join c t toks Hin). now apply Hall. }
  split; [exact Heq | split; [| reflexivity]].
  rewrite Heq. apply class_filter_spec.
Qed.

Lemma find_split {A : Type} (p : A -> bool) (l : list A) (x : A) :
  List.find p l = Some x ->
  p x = true
  /\ exists pre post,
       l = pre ++ x :: post /\ Forall (fun a => p a = false) pre.
Proof.
  induction l as [| a l IH]; [discriminate |]. simpl.
  destruct (p a) eqn:Hp.
  - intros [= ->]. split; [exact Hp |]. exists [], l. split; [reflexivity | constructor].
  - intros H. destruct (IH H) as (Hx & pre & post & -> & Hpre).
    split; [exact Hx |]. exists (a :: pre), post.
    split; [reflexivity | now constructor].
Qed.

Lemma find_none_iff {A : Type} (p : A -> bool) (l : list A) :
  List.find p l = None <-> Forall (fun a => p a = false) l.
Proof.
  induction l as [| a l IH]; simpl.
  - split; [constructor | reflexivity].
  - destruct (p a) eqn:Hp.
    + split; [discriminate |]. intros H. inversion H; congruence.
    + rewrite IH. split; [now constructor | intros H; now inversion H].
Qed.

(** X20. [_get_element] returns the first element in document order that
    has the tag, passes the class filter and, when substrings are given,
    whose text contains one of them; it returns [None] exactly when no
    element does. Without substrings (none given, or an empty list) the
    text is not looked at. *)
Theorem get_element_first_match (tag : string) (names : list string)
    (subs : option (list string)) (soup : node) :
  (forall el,
      _get_element tag names subs soup = Some el ->
      In el (descendants soup)
      /\ is_tag tag (matches_fn (class_filter names)) el = true
      /\ exists pre post,
           find_all tag (matches_fn (class_filter names)) soup
           = pre ++ el :: post
           /\ match subs with
              | None | Some [] => pre = []
              | Some ss =>
                  text_has_any ss el = true
                  /\ Forall (fun e => text_has_any ss e = false) pre
              end)
  /\ (_get_element tag names subs soup = None
      <-> match subs with
          | None | Some [] =>
              find_all tag (matches_fn (class_filter names)) soup = []
          | Some ss =>
              Forall (fun e => text_has_any ss e = false)
                (find_all tag (matches_fn (class_filter names)) soup)
          end).
Proof.
  assert (Hcand : forall el,
            In el (find_all tag (matches_fn (class_filter names)) soup) ->
            In el (descendants soup)
            /\ is_tag tag (matches_fn (class_filter names)) el = true).
  { intros el Hin. unfold find_all in Hin. now apply List.filter_In in Hin. }
  unfold _get_element.
  destruct (find_all tag (matches_fn (class_filter names)) soup)
    as [| first rest] eqn:Hall.
  - split; [discriminate |].
    destruct subs as [[| s ss] |]; split; auto; constructor.
  - assert (Hfirst : forall el, Some first = Some el ->
              In el (descendants soup)
              /\ is_tag tag (matches_fn (class_filter names)) el = true
              /\ exists pre post, first :: rest = pre ++ el :: post /\ pre = []).
    { intros el [= <-]. destruct (Hcand first ltac:(now left)) as [H1 H2].
      split; [exact H1 | split; [exact H2 |]]. exists [], rest. auto. }
    destruct subs as [[| s ss] |].
    + split; [exact Hfirst | split; discriminate].
    + split.
      * intros el Hfind.
        destruct (find_split _ _ _ Hfind) as (Hel & pre & post & Heq & Hpre).
        assert (Hin : In el (first :: rest))
          by (rewrite Heq; apply in_elt).
        destruct (Hcand el Hin) as [H1 H2].
        split; [exact H1 | split; [exact H2 |]].
        exists pre, post. auto.
      * apply find_none_iff.
    + split; [exact Hfirst | split; discriminate].
Qed.

(** X21. The only integer [get_shipping] returns is [0], and it returns it
    exactly when the shipping block and its first bold span exist and the
    text of that span contains "Free". *)
Theorem get_shipping_integer_is_free (soup : node) (z : Z) :
  get_shipping soup = Some (CInt z)
  <-> z = 0%Z
      /\ exists block first rest,
           _get_element "div" Fixtures.shipping_classes None soup = Some block
           /\ find_all "span" (matches_str bold_class) block = first :: rest
           /\ PyStr.contains "Free" (get_text first) = true.
Proof.
  unfold get_shipping. fold Fixtures.shipping_classes.
  destruct (_get_element "div" Fixtures.shipping_classes None soup)
    as [block |].
  2:{ split; [discriminate | intros (_ & b & f & r & H & _); discriminate]. }
  destruct (find_all "span" (matches_str bold_class) block)
    as [| first rest] eqn:Hbold.
  { split; [discriminate | intros (_ & b & f & r & [= <-] & H & _);
                           congruence]. }
  unfold classify_shipping.
  destruct (PyStr.contains "Free" (get_text first)) eqn:Hfree.
  - split.
    + intros [= <-]. split; [reflexivity |]. exists block, first, rest. auto.
    + now intros (-> & _).
  - split.
    + destruct (PyStr.contains "May not ship to" (get_text first));
        [discriminate |].
      destruct (PyStr.contains "US $" (get_text first)); discriminate.
    + intros (_ & b & f & r & [= <-] & Hb & H).
      rewrite Hbold in Hb. injection Hb as <- <-. congruence.
Qed.

(** X22. A price [get_price] returns is never the empty text and has no
    white space at either end; [None] stands for a missing price block as
    well as for a block whose text is empty once the currency prefix and
    the per-unit suffix are removed. *)
Theorem get_price_clean (soup : node) :
  (forall p,
      get_price soup = Some p ->
      p <> "" /\ starts_clean p /\ ends_clean p)
  /\ (get_price soup = None
      <-> _get_element "div" ["x-price-primary"] None soup = None
          \/ exists block,
               _get_element "div" ["x-price-primary"] None soup = Some block
               /\ PyStr.strip
                    (PyStr.replace "/ea" ""
                       (PyStr.replace "US $" "" (get_text block))) = "").
Proof.
  unfold get_price.
  destruct (_get_element "div" ["x-price-primary"] None soup) as [block |].
  - pose proof (SheetFacts.strip_clean
                  (PyStr.replace "/ea" ""
                     (PyStr.replace "US $" "" (get_text block))))
      as (Hs & He & _).
    destruct (PyStr.strip _) as [| c t] eqn:Hstrip.
    + split; [discriminate |]. split; [| reflexivity].
      intros _. right. exists block. auto.
    + split.
      * intros p [= <-]. split; [discriminate | auto].
      * split; [discriminate |].
        intros [H | (b & [= <-] & H)]; [discriminate | congruence].
  - split; [discriminate |]. split; auto.
Qed.

End ParserMore.

(** * The resolver with its two unguarded calls *)

Module RaisingFacts.
Import Main Observe Shape.

Section Resolver.
Context {World : Type}.
Variable get_driver : World -> result unit * World.
Variable navigate : string -> bool -> World -> result string * World.
Variable P : ParserOps.
Variable build_parser : string -> result (parser P).

Lemma get_page_driver_raises (url : string) (b : bool) (w w1 : World)
    (e : exn) :
  get_driver w = (Raise e, w1) ->
  Raising.get_page get_driver navigate url b w = (Raise e, w1).
Proof. intros H. unfold Raising.get_page. now rewrite H. Qed.

Lemma get_page_driver_returns (url : string) (b : bool) (w w1 : World)
    (u : unit) :
  get_driver w = (Ok u, w1) ->
  Raising.get_page get_driver navigate url b w
  = (Ok (fst (Request.get_page navigate url b w1)),
     snd (Request.get_page navigate url b w1)).
Proof.
  intros H. unfold Raising.get_page. rewrite H.
  now destruct (Request.get_page navigate url b w1).
Qed.

(** X15. The whole of [get_page]. An exception of [get_driver()], which is
    called before the [try] block, leaves [get_page], and it is the only
    one that does. Once the driver is there, [get_page] returns: the page
    source when it is not empty and holds none of the three anti-bot
    signatures, and [None] otherwise, an exception of the driver calls
    inside the [try] block included; the world afterwards is the one those
    calls left. *)
Theorem get_page_driver_then_try (url : string) (second_req : bool)
    (w : World) :
  (forall e,
      fst (Raising.get_page get_driver navigate url second_req w) = Raise e
      <-> fst (get_driver w) = Raise e)
  /\ (forall e w1,
        get_driver w = (Raise e, w1) ->
        Raising.get_page get_driver navigate url second_req w = (Raise e, w1))
  /\ (forall u w1,
        get_driver w = (Ok u, w1) ->
        snd (Raising.get_page get_driver navigate url second_req w)
        = snd (navigate url second_req w1)
        /\ (forall html,
              fst (Raising.get_page get_driver navigate url second_req w)
              = Ok (Some html)
              <-> fst (navigate url second_req w1) = Ok html
                  /\ html <> ""
                  /\ Forall (fun sig => PyStr.contains sig html = false)
                       Request._BAD_SIGNATURES)
        /\ (fst (Raising.get_page get_driver navigate url second_req w)
            = Ok None
            <-> (exists e, fst (navigate url second_req w1) = Raise e)
                \/ (exists html,
                      fst (navigate url second_req w1) = Ok html
                      /\ Request._is_bad_page html = true))).
Proof.
  split; [| split].
  - intros e. unfold Raising.get_page.
    destruct (get_driver w) as [[u | e'] w1]; cbn [fst].
    + destruct (Request.get_page navigate url second_req w1).
      split; discriminate.
    + split; now intros [= ->].
  - intros e w1. apply get_page_driver_raises.
  - intros u w1 Hd. rewrite (get_page_driver_returns _ _ _ _ _ Hd).
    cbn [fst snd].
    destruct (RequestFacts.get_page_try_block navigate url second_req w1)
      as (Hw & Hsome & Hnone).
    split; [exact Hw | split].
    + intros html. rewrite <- Hsome. split; [now intros [= ->] | now intros ->].
    + rewrite <- Hnone. split; [now intros [= ->] | now intros ->].
Qed.

Lemma fetch_driver_raises (l : string) (b : bool) (st : state) (w1 : World)
    (e : exn) :
  get_driver (world st) = (Raise e, w1) ->
  Raising.fetch get_driver navigate l b st
  = (Raise e, mkState w1 (trace st)).
Proof.
  intros H. unfold Raising.fetch.
  now rewrite (get_page_driver_raises _ _ _ _ _ H).
Qed.

Lemma fetch_driver_returns (l : string) (b : bool) (st : state) (w1 : World)
    (u : unit) :
  get_driver (world st) = (Ok u, w1) ->
  Raising.fetch get_driver navigate l b st
  = (Ok (fst (Request.get_page navigate l b w1)),
     mkState (snd (Request.get_page navigate l b w1))
       (trace st ++ [EvFetch l b])).
Proof.
  intros H. unfold Raising.fetch.
  now rewrite (get_page_driver_returns _ _ _ _ _ H).
Qed.

Lemma fetch_not_empty (l : string) (b : bool) (st : state) :
  fst (Raising.fetch get_driver navigate l b st) <> Ok (Some "").
Proof.
  unfold Raising.fetch, Raising.get_page.
  destruct (get_driver (world st)) as [[u | e] w1]; [| discriminate].
  pose proof (ResolverFacts.get_page_not_empty navigate l b w1) as H.
  destruct (Request.get_page navigate l b w1) as [page w2]. cbn [fst] in *.
  congruence.
Qed.

Lemma fetch_trace_raising (l : string) (b : bool) (st st1 : state)
    (page : option string) :
  Raising.fetch get_driver navigate l b st = (Ok page, st1) ->
  trace st1 = trace st ++ [EvFetch l b].
Proof.
  unfold Raising.fetch.
  destruct (Raising.get_page get_driver navigate l b (world st))
    as [[pg | e] w']; [| discriminate].
  now intros [= _ <-].
Qed.

(** What a pass adds to the trace: at most one fetch, then at most one
    parse; nothing is written. A pass that is not left by an exception has
    made its fetch. *)
Lemma attempt_body_trace_raising (l : string) (k : nat) (item : Item)
    (st : state) :
  exists evs,
    trace (snd (Raising.attempt_body get_driver navigate P build_parser
                  l k item st))
    = trace st ++ evs
    /\ count_fetch evs <= 1
    /\ count_parse evs <= count_fetch evs
    /\ count_batch_update evs = 0
    /\ ((forall e,
           fst (Raising.attempt_body get_driver navigate P build_parser
                  l k item st) <> Raising.Escaped e) ->
        count_fetch evs = 1).
Proof.
  unfold Raising.attempt_body, Raising.fetch.
  destruct (Raising.get_page get_driver navigate l (1 <? k) (world st))
    as [[[[| c pg] |] | e] w'].
  - exists [EvFetch l (1 <? k)]. simpl. repeat split; auto; intros; cbn; lia.
  - destruct (build_parser (String c pg)) as [p | e].
    + exists [EvFetch l (1 <? k); EvParse (String c pg)].
      destruct (try_body P p item) as [item' [[] | e]]; simpl;
        rewrite <- app_assoc; repeat split; auto; intros; cbn; lia.
    + exists [EvFetch l (1 <? k)]. simpl. repeat split; auto; intros; cbn; lia.
  - exists [EvFetch l (1 <? k)]. simpl. repeat split; auto; intros; cbn; lia.
  - exists []. simpl. rewrite app_nil_r.
    repeat split; auto; try (cbn; lia). intros H. now destruct (H e).
Qed.

Lemma attempts_loop_trace_raising (l : string) (todo : list nat) :
  forall (item : Item) (st : state),
  exists evs,
    trace (snd (Raising.attempts_loop get_driver navigate P build_parser
                  l todo item st))
    = trace st ++ evs
    /\ count_fetch evs <= length todo
    /\ count_parse evs <= count_fetch evs
    /\ count_batch_update evs = 0
    /\ (todo <> [] ->
        (forall e,
           fst (Raising.attempts_loop get_driver navigate P build_parser
                  l todo item st) <> Raise e) ->
        1 <= count_fetch evs).
Proof.
  induction todo as [| k rest IH]; intros item st; cbn [Raising.attempts_loop].
  - exists []. rewrite app_nil_r. repeat split; auto. congruence.
  - destruct (attempt_body_trace_raising l k item st)
      as (e1 & Ht1 & Hf1 & Hp1 & Hb1 & He1).
    destruct (Raising.attempt_body get_driver navigate P build_parser
                l k item st) as [[item' | item' | e] st']; cbn [fst snd] in *.
    + exists e1. repeat split; auto; simpl; try lia.
      intros _ _. rewrite He1; [lia | discriminate].
    + destruct (IH item' st') as (e2 & Ht2 & Hf2 & Hp2 & Hb2 & _).
      exists (e1 ++ e2).
      rewrite Ht2, Ht1, <- app_assoc, ResolverFacts.count_fetch_app,
        ResolverFacts.count_parse_app, ResolverFacts.count_batch_update_app.
      repeat split; auto; simpl; try lia.
      intros _ _. rewrite He1; [lia | discriminate].
    + exists e1. repeat split; auto; simpl; try lia.
      intros _ H. now destruct (H e).
Qed.

Lemma attempt_body_link_raising (l : string) (k : nat) (item : Item) (st : state) :
  match fst (Raising.attempt_body get_driver navigate P build_parser
               l k item st) with
  | Raising.Returned item' | Raising.Continue item' => link item' = link item
  | Raising.Escaped _ => True
  end.
Proof.
  unfold Raising.attempt_body.
  destruct (Raising.fetch get_driver navigate l (1 <? k) st)
    as [[[[| c pg] |] | e] st1]; cbn [fst]; try reflexivity; try exact I.
  destruct (build_parser (String c pg)) as [p | e]; cbn [fst]; [| exact I].
  pose proof (ResolverFacts.try_body_link P p item) as H.
  destruct (try_body P p item) as [item' [[] | e]]; exact H.
Qed.

Lemma attempts_loop_link_raising (l : string) (todo : list nat) :
  forall (item item' : Item) (st st' : state),
    Raising.attempts_loop get_driver navigate P build_parser l todo item st
    = (Ok item', st') ->
    link item' = link item.
Proof.
  induction todo as [| k rest IH]; intros item item' st st';
    cbn [Raising.attempts_loop].
  - now intros [= <- _].
  - pose proof (attempt_body_link_raising l k item st) as H.
    destruct (Raising.attempt_body get_driver navigate P build_parser
                l k item st) as [[it | it | e] s1]; cbn [fst] in H.
    + now intros [= <- _].
    + intros Hloop. rewrite (IH _ _ _ _ Hloop). exact H.
    + discriminate.
Qed.

(** A pass is left by an exception in two ways only. *)
Lemma attempt_body_escaped_inv (l : string) (k : nat) (item : Item)
    (st st' : state) (e : exn) :
  Raising.attempt_body get_driver navigate P build_parser l k item st
  = (Raising.Escaped e, st') ->
  fst (get_driver (world st)) = Raise e
  \/ exists pg,
       fst (Raising.fetch get_driver navigate l (1 <? k) st) = Ok (Some pg)
       /\ build_parser pg = Raise e.
Proof.
  unfold Raising.attempt_body.
  destruct (Raising.fetch get_driver navigate l (1 <? k) st)
    as [[[[| c pg] |] | e'] st1] eqn:Hf; try discriminate.
  - destruct (build_parser (String c pg)) as [p | e'] eqn:Hb.
    + destruct (try_body P p item) as [item' [[] | e']]; discriminate.
    + intros [= <- _]. right. exists (String c pg). auto.
  - intros [= <- _]. left. unfold Raising.fetch, Raising.get_page in Hf.
    destruct (get_driver (world st)) as [[u | e0] w1]; cbn [fst].
    + destruct (Request.get_page navigate l (1 <? k) w1). discriminate.
    + now injection Hf as ->.
Qed.

(** How a pass that goes on to the next attempt ends. *)
Lemma attempt_body_continue_inv (l : string) (k : nat) (item item' : Item)
    (st st' : state) :
  Raising.attempt_body get_driver navigate P build_parser l k item st
  = (Raising.Continue item', st') ->
  (Raising.fetch get_driver navigate l (1 <? k) st = (Ok None, st')
   /\ item' = item)
  \/ (exists pg p e st1,
        Raising.fetch get_driver navigate l (1 <? k) st = (Ok (Some pg), st1)
        /\ build_parser pg = Ok p
        /\ try_body P p item = (item', Raise e)
        /\ st' = log (EvParse pg) st1).
Proof.
  unfold Raising.attempt_body.
  pose proof (fetch_not_empty l (1 <? k) st) as Hne.
  destruct (Raising.fetch get_driver navigate l (1 <? k) st)
    as [[[[| c pg] |] | e'] st1]; cbn [fst] in Hne; try discriminate.
  - congruence.
  - destruct (build_parser (String c pg)) as [p | e'] eqn:Hb;
      [| discriminate].
    destruct (try_body P p item) as [it [[] | e]] eqn:Ht; [discriminate |].
    intros [= <- <-]. right. exists (String c pg), p, e, st1. auto.
  - intros [= <- <-]. left. auto.
Qed.

(** How a pass that returns ends. *)
Lemma attempt_body_returned_inv (l : string) (k : nat) (item item' : Item)
    (st st' : state) :
  Raising.attempt_body get_driver navigate P build_parser l k item st
  = (Raising.Returned item', st') ->
  exists pg p st1,
    Raising.fetch get_driver navigate l (1 <? k) st = (Ok (Some pg), st1)
    /\ build_parser pg = Ok p
    /\ try_body P p item = (item', Ok tt)
    /\ st' = log (EvParse pg) st1.
Proof.
  unfold Raising.attempt_body.
  destruct (Raising.fetch get_driver navigate l (1 <? k) st)
    as [[[[| c pg] |] | e'] st1]; try discriminate.
  destruct (build_parser (String c pg)) as [p | e'] eqn:Hb; [| discriminate].
  destruct (try_body P p item) as [it [[] | e]] eqn:Ht; [| discriminate].
  intros [= <- <-]. exists (String c pg), p, st1. auto.
Qed.

(** A pass whose fetch gave a page, whose parser was built and whose [try]
    block completed returns. *)
Lemma attempt_body_success (l : string) (k : nat) (item item' : Item)
    (st st1 : state) (pg : string) (p : parser P) (u : unit) :
  Raising.fetch get_driver navigate l (1 <? k) st = (Ok (Some pg), st1) ->
  build_parser pg = Ok p ->
  try_body P p item = (item', Ok u) ->
  Raising.attempt_body get_driver navigate P build_parser l k item st
  = (Raising.Returned item', log (EvParse pg) st1).
Proof.
  intros Hf Hb Ht. unfold Raising.attempt_body.
  pose proof (fetch_not_empty l (1 <? k) st) as Hne.
  rewrite Hf in *. cbn [fst] in Hne.
  destruct pg as [| c pg]; [congruence |].
  now rewrite Hb, Ht.
Qed.

(** After a [try] block left at getter [n], the record is the one before
    exactly when the getters before [n] returned what the record held. *)
Lemma record_unchanged_iff (p : parser P) (item item' : Item) (n : nat) :
  link item' = link item ->
  (forall j, j < n -> getter_gave P p j item') ->
  (forall j, n <= j -> field_kept j item item') ->
  item' = item <-> (forall j, j < n -> getter_gave P p j item).
Proof.
  intros Hl Hg Hk. split; [now intros <- |].
  intros H. apply ResolverFacts.item_eta; [exact Hl |]. intros j.
  destruct (le_lt_dec n j) as [Hle | Hlt]; [now apply Hk |].
  specialize (Hg j Hlt). specialize (H j Hlt).
  do 8 (destruct j as [| j]; [simpl in *; congruence |]).
  destruct Hg.
Qed.

(** C3, as the code has it. A pass of the retry loop that goes on to the
    next attempt leaves the link alone and ends in one of two ways. Either
    the fetch gave no page, and the record is the one before the pass. Or
    getter number [n] of the [try] block raised: the fields assigned
    before it hold the values this pass extracted, and the fields from [n]
    on are the ones before the pass. So the record is the one before the
    pass exactly when the getters that returned gave the values the record
    already held, as when the first getter is the one that raises. *)
Theorem failed_attempt_record (l : string) (k : nat) (item item' : Item)
    (st st' : state) :
  Raising.attempt_body get_driver navigate P build_parser l k item st
  = (Raising.Continue item', st') ->
  link item' = link item
  /\ ((fst (Raising.fetch get_driver navigate l (1 <? k) st) = Ok None
       /\ item' = item)
      \/ (exists pg p e n,
            fst (Raising.fetch get_driver navigate l (1 <? k) st)
            = Ok (Some pg)
            /\ build_parser pg = Ok p
            /\ n < 8
            /\ getter_raises P p n e
            /\ (forall j, j < n -> getter_gave P p j item')
            /\ (forall j, n <= j -> field_kept j item item')
            /\ (item' = item <-> (forall j, j < n -> getter_gave P p j item))
            /\ (n = 0 -> item' = item))).
Proof.
  intros H. destruct (attempt_body_continue_inv _ _ _ _ _ _ H)
    as [[Hf ->] | (pg & p & e & st1 & Hf & Hb & Ht & _)].
  - split; [reflexivity | left]. now rewrite Hf.
  - destruct (ResolverFacts.try_body_raise_inv _ _ _ _ _ Ht)
      as (n & Hn & Hr & Hg & Hk & Hl).
    pose proof (record_unchanged_iff p item item' n Hl Hg Hk) as Hiff.
    split; [exact Hl | right]. exists pg, p, e, n. rewrite Hf.
    repeat (split; [first [assumption | reflexivity] |]).
    intros ->. apply Hiff. intros j Hj. lia.
Qed.

(** C4. [parse_item] makes at most three fetches, at least one when it
    returns a record, and never more parses than fetches. It is the loop
    over the attempts 1, 2, 3, and the loop returns the record as it is
    once the attempts are used up. A pass whose fetch gave a page, whose
    parser was built and in which none of the eight getters raised, a fully
    successful parse, returns, whatever the number of the attempt, and a
    pass that returns ends the loop: the result is the record and the state
    of that pass, so nothing is fetched, parsed or assigned after it. A
    pass returns only after such a parse. A pass goes on to the next
    attempt, handing its record on, only when its fetch gave no page or
    one of the getters raised. *)
Theorem parse_item_retry_bound (l : string) (st : state) :
  (exists evs,
      trace (snd (Raising.parse_item get_driver navigate P build_parser l st))
      = trace st ++ evs
      /\ count_fetch evs <= 3
      /\ count_parse evs <= count_fetch evs
      /\ ((forall e,
             fst (Raising.parse_item get_driver navigate P build_parser l st)
             <> Raise e) ->
          1 <= count_fetch evs))
  /\ Raising.parse_item get_driver navigate P build_parser l st
     = Raising.attempts_loop get_driver navigate P build_parser
         l [1; 2; 3] (new_Item l) st
  /\ (forall item s,
        Raising.attempts_loop get_driver navigate P build_parser l [] item s
        = (Ok item, s))
  /\ (forall k rest item s pg s1 p,
        Raising.fetch get_driver navigate l (1 <? k) s = (Ok (Some pg), s1) ->
        build_parser pg = Ok p ->
        (forall j e, j < 8 -> ~ getter_raises P p j e) ->
        exists item',
          (forall j, j < 8 -> getter_gave P p j item')
          /\ link item' = link item
          /\ Raising.attempt_body get_driver navigate P build_parser
               l k item s
             = (Raising.Returned item', log (EvParse pg) s1)
          /\ Raising.attempts_loop get_driver navigate P build_parser
               l (k :: rest) item s
             = (Ok item', log (EvParse pg) s1))
  /\ (forall k rest item s item' s',
        Raising.attempt_body get_driver navigate P build_parser l k item s
        = (Raising.Returned item', s') ->
        Raising.attempts_loop get_driver navigate P build_parser
          l (k :: rest) item s
        = (Ok item', s')
        /\ exists pg p s1,
             Raising.fetch get_driver navigate l (1 <? k) s
             = (Ok (Some pg), s1)
             /\ build_parser pg = Ok p
             /\ (forall j, j < 8 -> getter_gave P p j item')
             /\ s' = log (EvParse pg) s1)
  /\ (forall k rest item s item' s',
        Raising.attempt_body get_driver navigate P build_parser l k item s
        = (Raising.Continue item', s') ->
        Raising.attempts_loop get_driver navigate P build_parser
          l (k :: rest) item s
        = Raising.attempts_loop get_driver navigate P build_parser
            l rest item' s'
        /\ (fst (Raising.fetch get_driver navigate l (1 <? k) s) = Ok None
            \/ exists pg p e n,
                 fst (Raising.fetch get_driver navigate l (1 <? k) s)
                 = Ok (Some pg)
                 /\ build_parser pg = Ok p
                 /\ n < 8
                 /\ getter_raises P p n e)).
Proof.
  split; [| split; [reflexivity | split; [reflexivity | split; [| split]]]].
  - destruct (attempts_loop_trace_raising l [1; 2; 3] (new_Item l) st)
      as (evs & Ht & Hle & Hp & _ & Hge).
    exists evs. split; [exact Ht |]. simpl in Hle.
    split; [exact Hle | split; [exact Hp |]].
    intros H. apply Hge; [discriminate | exact H].
  - intros k rest item s pg s1 p Hf Hb Hno.
    destruct (ResolverFacts.try_body_ok_intro P p item Hno) as [item' Ht].
    destruct (ResolverFacts.try_body_ok_inv _ _ _ _ _ Ht) as [Hg Hl].
    pose proof (attempt_body_success l k item item' s s1 pg p tt Hf Hb Ht)
      as Ha.
    exists item'. split; [exact Hg | split; [exact Hl | split; [exact Ha |]]].
    cbn [Raising.attempts_loop]. now rewrite Ha.
  - intros k rest item s item' s' H. split.
    + cbn [Raising.attempts_loop]. now rewrite H.
    + destruct (attempt_body_returned_inv _ _ _ _ _ _ H)
        as (pg & p & s1 & Hf & Hb & Ht & Hs).
      exists pg, p, s1. split; [exact Hf | split; [exact Hb |]].
      split; [| exact Hs]. apply (ResolverFacts.try_body_ok_inv _ _ _ _ _ Ht).
  - intros k rest item s item' s' H. split.
    + cbn [Raising.attempts_loop]. now rewrite H.
    + destruct (attempt_body_continue_inv _ _ _ _ _ _ H)
        as [[Hf _] | (pg & p & e & s1 & Hf & Hb & Ht & _)];
        [left; now rewrite Hf | right].
      destruct (ResolverFacts.try_body_raise_inv _ _ _ _ _ Ht)
        as (n & Hn & Hr & _).
      exists pg, p, e, n. rewrite Hf. auto.
Qed.

(** A pass whose fetch gave no page hands the record on as it is. *)
Lemma attempt_body_none_raising (l : string) (k : nat) (item : Item)
    (st : state) (u : unit) (d w' : World) :
  get_driver (world st) = (Ok u, d) ->
  Request.get_page navigate l (1 <? k) d = (None, w') ->
  Raising.attempt_body get_driver navigate P build_parser l k item st
  = (Raising.Continue item, mkState w' (trace st ++ [EvFetch l (1 <? k)])).
Proof.
  intros Hd Hp. unfold Raising.attempt_body.
  rewrite (fetch_driver_returns l (1 <? k) st d u Hd), Hp. reflexivity.
Qed.

(** C2. The code does not keep what the claim says. The exception of
    [get_driver()] and the exception of [Parser(page)] leave [parse_item]:
    no record is returned. When the browser cannot be started, nothing
    is fetched. When the first page fetched is one the constructor
    refuses, [parse_item] ends with the constructor's exception right
    after the first fetch, without a retry. At any attempt a pass left by
    an exception ends the loop with that exception, and a pass is left by
    an exception only in these two ways. The rest of the claim holds: the
    record, whenever one is returned, has the input link as its [link],
    and when [get_page] gives [None] at each of the three attempts the
    record returned is the one built at the start, with every field other
    than [link] equal to [None], after three fetches. *)
Theorem parse_item_escapes (l : string) (st : state) :
  (forall e w1,
      get_driver (world st) = (Raise e, w1) ->
      Raising.parse_item get_driver navigate P build_parser l st
      = (Raise e, mkState w1 (trace st)))
  /\ (forall u w1 pg w2 e,
        get_driver (world st) = (Ok u, w1) ->
        Request.get_page navigate l false w1 = (Some pg, w2) ->
        build_parser pg = Raise e ->
        Raising.parse_item get_driver navigate P build_parser l st
        = (Raise e, mkState w2 (trace st ++ [EvFetch l false])))
  /\ (forall k rest item s e s',
        Raising.attempt_body get_driver navigate P build_parser l k item s
        = (Raising.Escaped e, s') ->
        Raising.attempts_loop get_driver navigate P build_parser
          l (k :: rest) item s
        = (Raise e, s')
        /\ (fst (get_driver (world s)) = Raise e
            \/ exists pg,
                 fst (Raising.fetch get_driver navigate l (1 <? k) s)
                 = Ok (Some pg)
                 /\ build_parser pg = Raise e))
  /\ (forall item st',
        Raising.parse_item get_driver navigate P build_parser l st
        = (Ok item, st') ->
        link item = l)
  /\ (forall u1 u2 u3 d1 d2 d3 w1 w2 w3,
        get_driver (world st) = (Ok u1, d1) ->
        Request.get_page navigate l false d1 = (None, w1) ->
        get_driver w1 = (Ok u2, d2) ->
        Request.get_page navigate l true d2 = (None, w2) ->
        get_driver w2 = (Ok u3, d3) ->
        Request.get_page navigate l true d3 = (None, w3) ->
        Raising.parse_item get_driver navigate P build_parser l st
        = (Ok (mkItem l None None None None None None None None),
           mkState w3
             (trace st ++ [EvFetch l false; EvFetch l true; EvFetch l true]))).
Proof.
  split; [| split; [| split; [| split]]].
  - intros e w1 Hd. unfold Raising.parse_item, attempts.
    cbn [List.seq Raising.attempts_loop]. unfold Raising.attempt_body.
    now rewrite (fetch_driver_raises l (1 <? 1) st w1 e Hd).
  - intros u w1 pg w2 e Hd Hpage Hb. unfold Raising.parse_item, attempts.
    cbn [List.seq Raising.attempts_loop]. unfold Raising.attempt_body.
    rewrite (fetch_driver_returns l (1 <? 1) st w1 u Hd).
    change (1 <? 1) with false. rewrite Hpage. cbn [fst snd].
    destruct pg as [| c pg].
    + exfalso.
      apply (ResolverFacts.get_page_not_empty navigate l false w1).
      now rewrite Hpage.
    + now rewrite Hb.
  - intros k rest item s e s' H. split.
    + cbn [Raising.attempts_loop]. now rewrite H.
    + apply (attempt_body_escaped_inv _ _ _ _ _ _ H).
  - intros item st' H. unfold Raising.parse_item in H.
    now rewrite (attempts_loop_link_raising _ _ _ _ _ _ H).
  - intros u1 u2 u3 d1 d2 d3 w1 w2 w3 Hd1 H1 Hd2 H2 Hd3 H3.
    unfold Raising.parse_item, attempts.
    cbn [List.seq Raising.attempts_loop].
    rewrite (attempt_body_none_raising l 1 _ st u1 d1 w1 Hd1 H1).
    rewrite (attempt_body_none_raising l 2 _ (mkState w1 _) u2 d2 w2 Hd2 H2).
    rewrite (attempt_body_none_raising l 3 _ (mkState w2 _) u3 d3 w3 Hd3 H3).
    cbn [trace]. now rewrite <- !app_assoc.
Qed.

(** In the runs in which [get_driver()] and [Parser(page)] return, the
    program of [Raising] is the program of [Main]. *)
Section Agreement.
Hypothesis driver_returns : forall w, get_driver w = (Ok tt, w).
Hypothesis parser_returns :
  forall pg, build_parser pg = Ok (new_parser P pg).

Lemma fetch_agrees (l : string) (b : bool) (st : state) :
  Raising.fetch get_driver navigate l b st
  = (Ok (fst (Main.fetch navigate l b st)), snd (Main.fetch navigate l b st)).
Proof.
  rewrite (fetch_driver_returns l b st (world st) tt (driver_returns _)).
  unfold Main.fetch.
  now destruct (Request.get_page navigate l b (world st)).
Qed.

Lemma attempt_body_agrees (l : string) (k : nat) (item : Item) (st : state) :
  Raising.attempt_body get_driver navigate P build_parser l k item st
  = (lift_outcome (fst (Main.attempt_body navigate P l k item st)),
     snd (Main.attempt_body navigate P l k item st)).
Proof.
  unfold Raising.attempt_body, Main.attempt_body. rewrite fetch_agrees.
  destruct (Main.fetch navigate l (1 <? k) st) as [[[| c pg] |] st1];
    cbn [fst snd]; try reflexivity.
  rewrite parser_returns.
  now destruct (try_body P (new_parser P (String c pg)) item)
    as [item' [[] | e]].
Qed.

Lemma attempts_loop_agrees (l : string) (todo : list nat) :
  forall (item : Item) (st : state),
    Raising.attempts_loop get_driver navigate P build_parser l todo item st
    = (Ok (fst (Main.attempts_loop navigate P l todo item st)),
       snd (Main.attempts_loop navigate P l todo item st)).
Proof.
  induction todo as [| k rest IH]; intros item st; [reflexivity |].
  cbn [Raising.attempts_loop Main.attempts_loop]. rewrite attempt_body_agrees.
  destruct (Main.attempt_body navigate P l k item st) as [[it | it] s1];
    cbn [fst snd lift_outcome]; [reflexivity | apply IH].
Qed.

Lemma parse_item_agrees (l : string) (st : state) :
  Raising.parse_item get_driver navigate P build_parser l st
  = (Ok (fst (Main.parse_item navigate P l st)),
     snd (Main.parse_item navigate P l st)).
Proof. apply attempts_loop_agrees. Qed.

Lemma resolve_all_agrees (links : list string) :
  forall (items : gmap string Item) (st : state),
    Raising.resolve_all get_driver navigate P build_parser links items st
    = (Ok (fst (Main.resolve_all navigate P links items st)),
       snd (Main.resolve_all navigate P links items st)).
Proof.
  induction links as [| l rest IH]; intros items st; [reflexivity |].
  cbn [Raising.resolve_all Main.resolve_all]. rewrite parse_item_agrees.
  destruct (Main.parse_item navigate P l st) as [item st1]. cbn [fst snd].
  apply IH.
Qed.

Lemma main_agrees (vals : list (list string)) (st : state) :
  Raising.main get_driver navigate P build_parser vals st
  = Main.main navigate P vals st.
Proof.
  unfold Raising.main, Main.main.
  destruct (get_links vals) as [links | e]; [| reflexivity].
  rewrite resolve_all_agrees.
  now destruct (Main.resolve_all navigate P links ∅ st).
Qed.

End Agreement.

Lemma parse_item_trace_raising (l : string) (st : state) :
  exists evs,
    trace (snd (Raising.parse_item get_driver navigate P build_parser l st))
    = trace st ++ evs
    /\ count_fetch evs <= 3
    /\ count_batch_update evs = 0.
Proof.
  destruct (attempts_loop_trace_raising l [1; 2; 3] (new_Item l) st)
    as (evs & Ht & Hf & _ & Hb & _).
  exists evs. auto.
Qed.

Lemma resolve_all_trace_raising (links : list string) :
  forall (items : gmap string Item) (st : state),
  exists evs,
    trace (snd (Raising.resolve_all get_driver navigate P build_parser
                  links items st))
    = trace st ++ evs
    /\ count_fetch evs <= 3 * length links
    /\ count_batch_update evs = 0.
Proof.
  induction links as [| l rest IH]; intros items st;
    cbn [Raising.resolve_all].
  - exists []. rewrite app_nil_r. repeat split; auto; cbn; lia.
  - destruct (parse_item_trace_raising l st) as (e1 & Ht1 & Hf1 & Hb1).
    destruct (Raising.parse_item get_driver navigate P build_parser l st)
      as [[item | e] st1]; cbn [snd] in *.
    + destruct (IH (<[l:=item]> items) st1) as (e2 & Ht2 & Hf2 & Hb2).
      exists (e1 ++ e2).
      rewrite Ht2, Ht1, <- app_assoc, ResolverFacts.count_fetch_app,
        ResolverFacts.count_batch_update_app.
      repeat split; auto; simpl; lia.
    + exists e1. repeat split; auto; simpl; lia.
Qed.

Lemma resolve_all_dom_raising (links : list string) :
  forall (items items' : gmap string Item) (st st' : state),
    Raising.resolve_all get_driver navigate P build_parser links items st
    = (Ok items', st') ->
    dom items' = list_to_set links ∪ dom items.
Proof.
  induction links as [| l rest IH]; intros items items' st st';
    cbn [Raising.resolve_all].
  - intros [= <- _]. set_solver.
  - destruct (Raising.parse_item get_driver navigate P build_parser l st)
      as [[item | e] st1]; [| discriminate].
    intros H. rewrite (IH _ _ _ _ H), dom_insert_L. set_solver.
Qed.

Section WellFormed.
Variable headers : list string.
Variable rows : list (list string).
Variable cs : columns.
Hypothesis Hcols : resolve_columns headers = Ok cs.
Hypothesis Hrect : forall row, In row rows -> col_link cs <= length row.

Lemma row_matched_of_dom (items : gmap string Item) (row : list string) :
  dom items = list_to_set (link_cells (col_link cs - 1) rows) ->
  In row rows ->
  row_matched items (col_link cs - 1) row
  = nonempty (link_cell (col_link cs - 1) row).
Proof.
  intros Hdom Hin. unfold row_matched.
  set (idx := col_link cs - 1) in *. set (links := link_cells idx rows) in *.
  assert (Hkey : link_cell idx row ∈ links
                 <-> nonempty (link_cell idx row) = true).
  { unfold links, link_cells.
    rewrite list_elem_of_In, List.filter_In, in_map_iff.
    split; [tauto |]. intros Hne. split; [eauto | exact Hne]. }
  destruct (items !! link_cell idx row) as [it |] eqn:Hit.
  - assert (Hd : link_cell idx row ∈ dom items) by (apply elem_of_dom; eauto).
    rewrite Hdom in Hd. apply elem_of_list_to_set in Hd.
    symmetry. now apply Hkey.
  - destruct (nonempty (link_cell idx row)) eqn:Hne; [| reflexivity].
    apply not_elem_of_dom in Hit. exfalso. apply Hit. rewrite Hdom.
    apply elem_of_list_to_set. now apply Hkey.
Qed.

(** X10. A run of [main] on a sheet whose header row has the nine columns
    and whose rows all reach the link column ends in one of two ways, and
    in both the resolution of the links sends nothing. If an exception
    leaves a call of [parse_item], [main] ends with that exception where
    the resolution stopped: no batch is sent. Otherwise [main] ends
    normally: with no link in the sheet nothing is fetched or written, and
    with links one batch is sent after the resolution, holding eight
    updates for each row with a link, also for the links whose pages gave
    no record. *)
Theorem main_on_well_formed_sheet (st : state) :
  exists evs,
    trace (snd (Raising.resolve_all get_driver navigate P build_parser
                  (link_cells (col_link cs - 1) rows) ∅ st))
    = trace st ++ evs
    /\ count_batch_update evs = 0
    /\ match fst (Raising.resolve_all get_driver navigate P build_parser
                   (link_cells (col_link cs - 1) rows) ∅ st) with
       | Raise e =>
           Raising.main get_driver navigate P build_parser
             (headers :: rows) st
           = (Raise e,
              snd (Raising.resolve_all get_driver navigate P build_parser
                     (link_cells (col_link cs - 1) rows) ∅ st))
       | Ok items =>
           exists updates,
             sheet_updates (headers :: rows) items = Ok updates
             /\ length updates
                = 8 * length (link_cells (col_link cs - 1) rows)
             /\ Raising.main get_driver navigate P build_parser
                  (headers :: rows) st
                = (Ok tt,
                   match link_cells (col_link cs - 1) rows with
                   | [] => st
                   | _ =>
                       log (EvBatchUpdate updates)
                         (snd (Raising.resolve_all get_driver navigate P
                                 build_parser
                                 (link_cells (col_link cs - 1) rows) ∅ st))
                   end)
       end.
Proof.
  set (links := link_cells (col_link cs - 1) rows).
  destruct (resolve_all_trace_raising links ∅ st) as (evs & Ht & _ & Hb).
  exists evs. split; [exact Ht | split; [exact Hb |]].
  unfold Raising.main.
  rewrite (WholeRun.get_links_well_formed headers rows cs Hcols Hrect).
  fold links.
  destruct (Raising.resolve_all get_driver navigate P build_parser links ∅ st)
    as [[items | e] st'] eqn:Hrun; cbn [fst snd]; [| reflexivity].
  pose proof (resolve_all_dom_raising _ _ _ _ _ Hrun) as Hdom.
  rewrite dom_empty_L, (right_id_L ∅ (∪)) in Hdom.
  exists (expected_updates cs items 2 rows).
  assert (Hups : sheet_updates (headers :: rows) items
                 = Ok (expected_updates cs items 2 rows))
    by now apply UpdateFacts.sheet_updates_rectangular.
  assert (Hlen : length (expected_updates cs items 2 rows)
                 = 8 * length links).
  { rewrite UpdateFacts.expected_updates_length. f_equal.
    unfold links, link_cells at 1. rewrite WholeRun.length_filter_map.
    f_equal. apply List.filter_ext_in. intros row Hin.
    now apply row_matched_of_dom. }
  split; [exact Hups | split; [exact Hlen |]].
  unfold update_sheet. rewrite Hups.
  destruct links as [| l ls].
  - cbn [Raising.resolve_all] in Hrun. injection Hrun as <- <-.
    destruct (expected_updates cs ∅ 2 rows);
      [reflexivity | simpl in Hlen; lia].
  - destruct (expected_updates cs items 2 rows);
      [simpl in Hlen; lia | reflexivity].
Qed.

End WellFormed.

End Resolver.

Lemma parse_item_escapes_witness :
  Raising.parse_item driver_ready counting_navigate echo_parser build_rejects
    "https://www.ebay.com/itm/1" (mkState 0 [])
  = (Raise (OtherError "UnicodeEncodeError"),
     mkState 1 [EvFetch "https://www.ebay.com/itm/1" false])
  /\ Raising.parse_item driver_missing counting_navigate echo_parser
       build_echo "https://www.ebay.com/itm/1" (mkState 0 [])
     = (Raise (OtherError "WebDriverException"), mkState 0 [])
  /\ Raising.parse_item driver_ready blocked_navigate echo_parser build_echo
       "https://www.ebay.com/itm/1" (mkState tt [])
     = (Ok (mkItem "https://www.ebay.com/itm/1"
              None None None None None None None None),
        mkState tt
          [EvFetch "https://www.ebay.com/itm/1" false;
           EvFetch "https://www.ebay.com/itm/1" true;
           EvFetch "https://www.ebay.com/itm/1" true]).
Proof.
  split; [| split].
  - apply (proj1 (proj2 (parse_item_escapes driver_ready counting_navigate
                           echo_parser build_rejects
                           "https://www.ebay.com/itm/1" (mkState 0 [])))
             tt 0 "page 0" 1 (OtherError "UnicodeEncodeError"));
      reflexivity.
  - apply (proj1 (parse_item_escapes driver_missing counting_navigate
                    echo_parser build_echo
                    "https://www.ebay.com/itm/1" (mkState 0 []))
             (OtherError "WebDriverException") 0).
    reflexivity.
  - apply (proj2 (proj2 (proj2 (proj2
             (parse_item_escapes driver_ready blocked_navigate echo_parser
                build_echo "https://www.ebay.com/itm/1" (mkState tt [])))))
             tt tt tt tt tt tt tt tt tt);
      reflexivity.
Defined.

Lemma failed_attempt_record_witness :
  Raising.attempt_body driver_ready counting_navigate faulty_parser build_echo
    "u" 1 (new_Item "u") (mkState 0 [])
  = (Raising.Continue (set_price (new_Item "u") (Some "page 0")),
     mkState 1 [EvFetch "u" false; EvParse "page 0"])
  /\ link (set_price (new_Item "u") (Some "page 0")) = "u".
Proof.
  split; [reflexivity |].
  apply (failed_attempt_record driver_ready counting_navigate faulty_parser
           build_echo "u" 1
           (new_Item "u") (set_price (new_Item "u") (Some "page 0"))
           (mkState 0 []) (mkState 1 [EvFetch "u" false; EvParse "page 0"])).
  reflexivity.
Defined.

(** Against C3 as worded: with a page whose price getter returns and
    whose shipping getter raises, the pass goes on to the next attempt and
    the record carries the price of the failed pass; after three such
    passes the record [parse_item] returns carries the price of the
    third. *)
Lemma failed_attempt_overwrites_price :
  Raising.attempt_body driver_ready counting_navigate faulty_parser build_echo
    "u" 1 (new_Item "u") (mkState 0 [])
  = (Raising.Continue (set_price (new_Item "u") (Some "page 0")),
     mkState 1 [EvFetch "u" false; EvParse "page 0"])
  /\ set_price (new_Item "u") (Some "page 0") <> new_Item "u"
  /\ fst (Raising.parse_item driver_ready counting_navigate faulty_parser
            build_echo "u" (mkState 0 []))
     = Ok (set_price (new_Item "u") (Some "page 2")).
Proof.
  split; [reflexivity | split; [discriminate | reflexivity]].
Qed.

Lemma parse_item_retry_bound_witness :
  Raising.parse_item driver_ready counting_navigate echo_parser build_echo
    "u" (mkState 0 [])
  = (Ok (set_price (new_Item "u") (Some "page 0")),
     mkState 1 [EvFetch "u" false; EvParse "page 0"]).
Proof.
  destruct (parse_item_retry_bound driver_ready counting_navigate echo_parser
              build_echo "u" (mkState 0 []))
    as (_ & Heq & _ & Hsuccess & _).
  destruct (Hsuccess 1 [2; 3] (new_Item "u") (mkState 0 []) "page 0"
              (mkState 1 [EvFetch "u" false]) "page 0" eq_refl eq_refl)
    as (item' & _ & _ & Hbody & Hloop).
  { intros j e Hj. do 8 (destruct j as [| j]; [discriminate |]). lia. }
  rewrite Heq, Hloop. f_equal. f_equal.
  assert (Hrun : Raising.attempt_body driver_ready counting_navigate
                   echo_parser build_echo "u" 1 (new_Item "u") (mkState 0 [])
                 = (Raising.Returned
                      (set_price (new_Item "u") (Some "page 0")),
                    mkState 1 [EvFetch "u" false; EvParse "page 0"]))
    by reflexivity.
  rewrite Hrun in Hbody. now injection Hbody as <-.
Defined.

Lemma get_page_driver_then_try_witness :
  Raising.get_page driver_ready counting_navigate "u" false 0
  = (Ok (Some "page 0"), 1)
  /\ Raising.get_page driver_missing counting_navigate "u" false 0
     = (Raise (OtherError "WebDriverException"), 0).
Proof.
  split; [reflexivity |].
  apply (proj1 (proj2 (get_page_driver_then_try driver_missing
                         counting_navigate "u" false 0))).
  reflexivity.
Defined.

Lemma main_on_well_formed_sheet_witness :
  (exists updates,
      length updates = 16
      /\ Raising.main driver_ready counting_navigate echo_parser build_echo
           (nine_headers :: three_rows) (mkState 0 [])
         = (Ok tt,
            mkState 2
              [EvFetch "u1" false; EvParse "page 0"; EvFetch "u2" false;
               EvParse "page 1"; EvBatchUpdate updates]))
  /\ Raising.main driver_ready counting_navigate echo_parser build_rejects
       (nine_headers :: three_rows) (mkState 0 [])
     = (Raise (OtherError "UnicodeEncodeError"),
        mkState 1 [EvFetch "u1" false]).
Proof.
  split.
  - destruct (main_on_well_formed_sheet driver_ready counting_navigate
                echo_parser build_echo nine_headers three_rows nine_columns
                eq_refl ltac:(UpdateFacts.each_row) (mkState 0 []))
      as (evs & _ & _ & Hmain).
    vm_compute in Hmain. destruct Hmain as (ups & _ & Hlen & Hmain).
    exists ups. split; [exact Hlen | exact Hmain].
  - destruct (main_on_well_formed_sheet driver_ready counting_navigate
                echo_parser build_rejects nine_headers three_rows nine_columns
                eq_refl ltac:(UpdateFacts.each_row) (mkState 0 []))
      as (evs & _ & _ & Hmain).
    exact Hmain.
Defined.

End RaisingFacts.
